(** * useDraggable: a shallow embedding of [src/index.tsx]

    The hook keeps one long-lived [internalState] record, a handful of
    closure variables (the [let] bindings of the hook body), and talks to
    three platform services: the DOM element behind [ref.current], the
    timer table behind [setInterval]/[setTimeout], and the window's
    listener registry.  All of them are made explicit in the record
    [World]; every handler of the source is a function [World -> World].

    JavaScript numbers are modelled by exact rationals ([Q]); rounding,
    infinities and NaN of binary64 are outside the model.  An assignment
    to a DOM property stores the assigned value: the platform's own
    clamping of scroll offsets is outside the model as well. *)

From Stdlib Require Import ZArith QArith Qabs Qround Qpower Qfield Lqa Lia.
From stdpp Require Import gmap strings list fin_maps.

Local Open Scope Q_scope.

(** ** Numbers *)

Abbreviation number := Q (only parsing).

Definition Math_abs (x : number) : number := Qabs x.

Definition Math_sign (x : number) : number :=
  match Qnum x with
  | Z0 => 0
  | Zpos _ => 1
  | Zneg _ => -1
  end.

(** [a < b], [a <= b], [a > b], [a >= b] of the source. *)
Definition le (a b : number) : bool := Qle_bool a b.
Definition lt (a b : number) : bool := negb (Qle_bool b a).
Definition gt (a b : number) : bool := lt b a.
Definition ge (a b : number) : bool := le b a.

(** ** The DOM as the hook sees it *)

Module Dom.

(** The style properties the hook reads or writes. *)
Record CSSStyleDeclaration := mkStyle {
  cursor : string;
  transform : string;
  transition : string;
  overflowX : string;
  overflowY : string;
}.

Definition set_cursor (v : string) (s : CSSStyleDeclaration) :=
  mkStyle v (transform s) (transition s) (overflowX s) (overflowY s).
Definition set_transform (v : string) (s : CSSStyleDeclaration) :=
  mkStyle (cursor s) v (transition s) (overflowX s) (overflowY s).
Definition set_transition (v : string) (s : CSSStyleDeclaration) :=
  mkStyle (cursor s) (transform s) v (overflowX s) (overflowY s).

(** A member of [ref.current.childNodes], an element: [isHTMLElement]
    is [child instanceof HTMLElement] (false for an [<svg>], say),
    [computed] is what [window.getComputedStyle(child)] returns, [style]
    is the inline [child.style]; [clickPrevented] tells whether
    [preventClick] is registered as a click listener ([addEventListener]
    of a function already registered changes nothing). *)
Record ChildNode := mkChild {
  isHTMLElement : bool;
  computed : CSSStyleDeclaration;
  style : CSSStyleDeclaration;
  clickPrevented : bool;
}.

Definition child_set_style (s : CSSStyleDeclaration) (c : ChildNode) :=
  mkChild (isHTMLElement c) (computed c) s (clickPrevented c).
Definition child_set_clickPrevented (b : bool) (c : ChildNode) :=
  mkChild (isHTMLElement c) (computed c) (style c) b.

(** The container element, [ref.current]. *)
Record HTMLElement := mkElement {
  scrollLeft : number;
  scrollTop : number;
  scrollWidth : number;
  scrollHeight : number;
  clientWidth : number;
  clientHeight : number;
  el_computed : CSSStyleDeclaration;
  el_style : CSSStyleDeclaration;
  childNodes : list ChildNode;
}.

Definition set_scroll (x y : number) (e : HTMLElement) :=
  mkElement x y (scrollWidth e) (scrollHeight e) (clientWidth e)
    (clientHeight e) (el_computed e) (el_style e) (childNodes e).
Definition set_el_style (s : CSSStyleDeclaration) (e : HTMLElement) :=
  mkElement (scrollLeft e) (scrollTop e) (scrollWidth e) (scrollHeight e)
    (clientWidth e) (clientHeight e) (el_computed e) s (childNodes e).
Definition set_childNodes (l : list ChildNode) (e : HTMLElement) :=
  mkElement (scrollLeft e) (scrollTop e) (scrollWidth e) (scrollHeight e)
    (clientWidth e) (clientHeight e) (el_computed e) (el_style e) l.

(** [child.style.p = a[i]]: an index outside the array reads
    [undefined], which the platform converts to the string "undefined".
    That is no value of [cursor] or [transform], and the platform
    ignores the assignment of a string that is no value of the
    property. *)
Definition assign (setp : string -> CSSStyleDeclaration -> CSSStyleDeclaration)
    (v : option string) (s : CSSStyleDeclaration) : CSSStyleDeclaration :=
  match v with
  | Some x => setp x s
  | None => s
  end.

(** [child.style.transition = a[i]]: "undefined" is a value of
    [transition] (the name of a property to animate), so here the
    platform stores it. *)
Definition assign_transition (v : option string) (s : CSSStyleDeclaration)
    : CSSStyleDeclaration :=
  set_transition (default "undefined" v) s.

End Dom.
Import Dom.

(** ** The hook's own state *)

(** [internalState.current] *)
Record InternalState := mkState {
  isMouseDown : bool;
  isDraggingX : bool;
  isDraggingY : bool;
  initialMouseX : number;
  initialMouseY : number;
  lastMouseX : number;
  lastMouseY : number;
  scrollSpeedX : number;
  scrollSpeedY : number;
  lastScrollX : number;
  lastScrollY : number;
}.

Definition initialState : InternalState :=
  mkState false false false 0 0 0 0 0 0 0 0.

Inductive MouseButton := Left | Middle | Right.

Record OptionsType := mkOptions {
  decayRate : number;
  safeDisplacement : number;
  applyRubberBandEffect : bool;
  activeMouseButton : MouseButton;
  isMounted : bool;
}.

Definition defaultOptions : OptionsType :=
  mkOptions (95 # 100) 10 false Left true.

(** The four style arrays of the hook body are assigned together by the
    layout effect and are [undefined] before it: one optional record. *)
Record Snapshot := mkSnapshot {
  cursorStyleOfWrapperElement : string;
  cursorStyleOfChildElements : list string;
  transformStyleOfChildElements : list string;
  transitionStyleOfChildElements : list string;
}.

(** What a pending timer runs when it fires. *)
Inductive TimerCallback := MomentumX | MomentumY | RecoverChildStyle.

#[global] Instance TimerCallback_eq_dec : EqDecision TimerCallback.
Proof. solve_decision. Defined.

(** The [let] bindings of the hook body. *)
Record Closure := mkClosure {
  isScrollableAlongX : bool;
  isScrollableAlongY : bool;
  maxHorizontalScroll : number;
  maxVerticalScroll : number;
  snapshot : option Snapshot;
  rubberBandAnimationTimer : option nat;
  keepMovingX : option nat;
  keepMovingY : option nat;
}.

Definition initialClosure : Closure :=
  mkClosure false false 0 0 None None None None.

Record World := mkWorld {
  ref_current : option HTMLElement;
  internalState : InternalState;
  vars : Closure;
  timers : gmap nat TimerCallback;  (* the platform's pending timers *)
  nextTimer : nat;                  (* the next timer handle *)
  listening : bool;                 (* window listeners registered *)
}.

Definition initialWorld (r : option HTMLElement) : World :=
  mkWorld r initialState initialClosure ∅ 1%nat false.

Definition set_ref (r : option HTMLElement) (w : World) :=
  mkWorld r (internalState w) (vars w) (timers w) (nextTimer w) (listening w).
Definition set_state (s : InternalState) (w : World) :=
  mkWorld (ref_current w) s (vars w) (timers w) (nextTimer w) (listening w).
Definition set_vars (c : Closure) (w : World) :=
  mkWorld (ref_current w) (internalState w) c (timers w) (nextTimer w)
    (listening w).
Definition set_timers (t : gmap nat TimerCallback) (n : nat) (w : World) :=
  mkWorld (ref_current w) (internalState w) (vars w) t n (listening w).
Definition set_listening (b : bool) (w : World) :=
  mkWorld (ref_current w) (internalState w) (vars w) (timers w) (nextTimer w) b.

(** ** Timers *)

(** [setInterval]/[setTimeout]: a fresh handle is entered in the table. *)
Definition setTimer (cb : TimerCallback) (w : World) : nat * World :=
  let id := nextTimer w in
  (id, set_timers (<[id := cb]> (timers w)) (S id) w).

(** [clearInterval]/[clearTimeout]; clearing [undefined] does nothing. *)
Definition clearTimer (h : option nat) (w : World) : World :=
  match h with
  | Some id => set_timers (delete id (timers w)) (nextTimer w) w
  | None => w
  end.

(** [const timing = (1 / 60) * 1000] *)
Definition timing : number := (1 / 60) * 1000.

(** ** runScroll *)

Definition runScroll (w : World) : World :=
  match ref_current w with
  | Some el =>
      let s := internalState w in
      let dx := scrollSpeedX s * timing in
      let dy := scrollSpeedY s * timing in
      let offsetX := scrollLeft el + dx in
      let offsetY := scrollTop el + dy in
      let w := set_ref (Some (set_scroll offsetX offsetY el)) w in
      set_state
        (mkState (isMouseDown s) (isDraggingX s) (isDraggingY s)
           (initialMouseX s) (initialMouseY s) (lastMouseX s) (lastMouseY s)
           (scrollSpeedX s) (scrollSpeedY s) offsetX offsetY) w
  | None => w
  end.

Definition set_scrollSpeedX (v : number) (s : InternalState) :=
  mkState (isMouseDown s) (isDraggingX s) (isDraggingY s) (initialMouseX s)
    (initialMouseY s) (lastMouseX s) (lastMouseY s) v (scrollSpeedY s)
    (lastScrollX s) (lastScrollY s).
Definition set_scrollSpeedY (v : number) (s : InternalState) :=
  mkState (isMouseDown s) (isDraggingX s) (isDraggingY s) (initialMouseX s)
    (initialMouseY s) (lastMouseX s) (lastMouseY s) (scrollSpeedX s) v
    (lastScrollX s) (lastScrollY s).
Definition set_isDragging (bx by_ : bool) (s : InternalState) :=
  mkState (isMouseDown s) bx by_ (initialMouseX s) (initialMouseY s)
    (lastMouseX s) (lastMouseY s) (scrollSpeedX s) (scrollSpeedY s)
    (lastScrollX s) (lastScrollY s).

Definition set_keepMovingX (h : option nat) (c : Closure) :=
  mkClosure (isScrollableAlongX c) (isScrollableAlongY c)
    (maxHorizontalScroll c) (maxVerticalScroll c) (snapshot c)
    (rubberBandAnimationTimer c) h (keepMovingY c).
Definition set_keepMovingY (h : option nat) (c : Closure) :=
  mkClosure (isScrollableAlongX c) (isScrollableAlongY c)
    (maxHorizontalScroll c) (maxVerticalScroll c) (snapshot c)
    (rubberBandAnimationTimer c) (keepMovingX c) h.
Definition set_rubberBandAnimationTimer (h : option nat) (c : Closure) :=
  mkClosure (isScrollableAlongX c) (isScrollableAlongY c)
    (maxHorizontalScroll c) (maxVerticalScroll c) (snapshot c)
    h (keepMovingX c) (keepMovingY c).
Definition set_maxScroll (mx my : number) (c : Closure) :=
  mkClosure (isScrollableAlongX c) (isScrollableAlongY c) mx my (snapshot c)
    (rubberBandAnimationTimer c) (keepMovingX c) (keepMovingY c).

(** [const minimumSpeedToTriggerMomentum = 0.05] *)
Definition minimumSpeedToTriggerMomentum : number := 5 # 100.

(** [v === "none" ? "" : v] *)
Definition noneAsEmpty (v : string) : string :=
  if String.eqb v "none" then "" else v.

(** The body of the three branches of [rubberBandCallback]:
    [0.3 * size * Math.sign(d) * Math.log10(1.0 + (0.5 * Math.abs(d)) / size)] *)
Definition rubberBand (log10 : number -> number) (size d : number) : number :=
  (3 # 10) * size * Math_sign d * log10 (1 + ((5 # 10) * Math_abs d) / size).

(** ** Fixtures for the worked examples *)

Module Fixtures.

Definition noStyle : CSSStyleDeclaration := mkStyle "" "" "" "" "".

Definition styled (c tf tr : string) : CSSStyleDeclaration :=
  mkStyle c tf tr "visible" "visible".

(** A [<div>] child and an [<svg>] child (an element that is not an
    HTMLElement), both without inline style. *)
Definition div : ChildNode :=
  mkChild true (styled "pointer" "none" "all 0s ease 0s") noStyle false.
Definition svg : ChildNode :=
  mkChild false (styled "pointer" "none" "none") noStyle false.

(** A 200x100 box showing 500x100 of content, scrolled to [x]. *)
Definition box (x : number) (ovX : string) (children : list ChildNode)
    : HTMLElement :=
  mkElement x 0 500 100 200 100 (mkStyle "auto" "none" "none" ovX "hidden")
    noStyle children.

Definition rubberOptions : OptionsType :=
  mkOptions (95 # 100) 10 true Left true.

(** Stand-ins for the two platform functions; no example depends on
    what they return. *)
Definition log10 (x : number) : number := 0.
Definition toString (x : number) : string := "0".

End Fixtures.

Section Controller.

#[local] Set Default Proof Using "Type".

(** Platform functions the hook calls: [Math.log10] and the conversion
    of a number to a string inside a template literal. *)
Variable Math_log10 : number -> number.
Variable Number_toString : number -> string.

(** The options of this controller, defaults already filled in. *)
Variable opts : OptionsType.

(** *** Mount: the layout effect and the effect *)

(** The style snapshot the layout effect takes of the container. *)
Definition capture (el : HTMLElement) : Snapshot :=
  mkSnapshot
    (cursor (el_computed el))
    ((λ child, cursor (computed child)) <$> childNodes el)
    ((λ child, noneAsEmpty (transform (computed child))) <$> childNodes el)
    ((λ child, noneAsEmpty (transition (computed child))) <$> childNodes el).

Definition useLayoutEffect (w : World) : World :=
  match isMounted opts, ref_current w with
  | true, Some el =>
      let c := vars w in
      set_vars
        (mkClosure
           (String.eqb (overflowX (el_computed el)) "scroll")
           (String.eqb (overflowY (el_computed el)) "scroll")
           (scrollWidth el - clientWidth el)
           (scrollHeight el - clientHeight el)
           (Some (capture el))
           (rubberBandAnimationTimer c) (keepMovingX c) (keepMovingY c)) w
  | _, _ => w
  end.

Definition useEffect (w : World) : World :=
  if isMounted opts then set_listening true w else w.

(** The clean-up returned by the effect. *)
Definition cleanup (w : World) : World :=
  let w := set_listening false w in
  let w := clearTimer (keepMovingX (vars w)) w in
  let w := clearTimer (keepMovingY (vars w)) w in
  clearTimer (rubberBandAnimationTimer (vars w)) w.

Definition mount (r : option HTMLElement) : World :=
  useEffect (useLayoutEffect (initialWorld r)).

(** *** rubberBandCallback *)

Definition displacement (w : World) (el : HTMLElement) (dx dy : number)
    : number * number :=
  if isScrollableAlongX (vars w) && isScrollableAlongY (vars w) then
    (rubberBand Math_log10 (clientWidth el) dx,
     rubberBand Math_log10 (clientHeight el) dy)
  else if isScrollableAlongX (vars w) then
    (rubberBand Math_log10 (clientWidth el) dx, 0)
  else if isScrollableAlongY (vars w) then
    (0, rubberBand Math_log10 (clientHeight el) dy)
  else (0, 0).

Definition translate3d (x y : number) : string :=
  "translate3d(" +:+ Number_toString x +:+ "px, " +:+ Number_toString y
    +:+ "px, 0px)".

Definition rubberBandCallback (clientX clientY : number) (w : World) : World :=
  match ref_current w with
  | None => w
  | Some el =>
      let dx := clientX - initialMouseX (internalState w) in
      let dy := clientY - initialMouseY (internalState w) in
      let '(displacementX, displacementY) := displacement w el dx dy in
      let write child :=
        if isHTMLElement child then
          child_set_style
            (set_transition "transform 0ms"
               (set_transform (translate3d displacementX displacementY)
                  (style child))) child
        else child in
      set_ref (Some (set_childNodes (write <$> childNodes el) el)) w
  end.

(** *** recoverChildStyle

    Without a snapshot the arrays are [undefined]: reading an index of
    one throws at the first HTMLElement child, before anything is
    written, so the world is left as it was. *)
Definition recoverChildStyle (w : World) : World :=
  match ref_current w, snapshot (vars w) with
  | Some el, Some snap =>
      let write (i : nat) child :=
        if isHTMLElement child then
          child_set_style
            (assign_transition (transitionStyleOfChildElements snap !! i)
               (assign set_transform
                  (transformStyleOfChildElements snap !! i) (style child)))
            child
        else child in
      set_ref (Some (set_childNodes (imap write (childNodes el)) el)) w
  | _, _ => w
  end.

(** *** callbackMomentum and the two interval callbacks *)

Definition momentumX (w : World) : World :=
  match ref_current w with
  | None => w
  | Some el =>
      let lastScrollSpeedX := scrollSpeedX (internalState w) in
      let newScrollSpeedX := lastScrollSpeedX * decayRate opts in
      let w := set_state (set_scrollSpeedX newScrollSpeedX (internalState w)) w in
      let isAtLeft := le (scrollLeft el) 0 in
      let isAtRight := ge (scrollLeft el) (maxHorizontalScroll (vars w)) in
      let hasReachedHorizontalEdges := isAtLeft || isAtRight in
      let w := runScroll w in
      if lt (Math_abs newScrollSpeedX) minimumSpeedToTriggerMomentum
         || isMouseDown (internalState w)
         || hasReachedHorizontalEdges
      then
        let w := set_state (set_scrollSpeedX 0 (internalState w)) w in
        clearTimer (keepMovingX (vars w)) w
      else w
  end.

Definition momentumY (w : World) : World :=
  match ref_current w with
  | None => w
  | Some el =>
      let lastScrollSpeedY := scrollSpeedY (internalState w) in
      let newScrollSpeedY := lastScrollSpeedY * decayRate opts in
      let w := set_state (set_scrollSpeedY newScrollSpeedY (internalState w)) w in
      let isAtTop := le (scrollTop el) 0 in
      let isAtBottom := ge (scrollTop el) (maxVerticalScroll (vars w)) in
      let hasReachedVerticalEdges := isAtTop || isAtBottom in
      let w := runScroll w in
      if lt (Math_abs newScrollSpeedY) minimumSpeedToTriggerMomentum
         || isMouseDown (internalState w)
         || hasReachedVerticalEdges
      then
        let w := set_state (set_scrollSpeedY 0 (internalState w)) w in
        clearTimer (keepMovingY (vars w)) w
      else w
  end.

Definition snapBack (child : ChildNode) : ChildNode :=
  child_set_style
    (set_transition "transform 250ms"
       (set_transform "translate3d(0px, 0px, 0px)" (style child))) child.

Definition callbackMomentum (w : World) : World :=
  match ref_current w with
  | None => w
  | Some el =>
      let '(idX, w) := setTimer MomentumX w in
      let w := set_vars (set_keepMovingX (Some idX) (vars w)) w in
      let '(idY, w) := setTimer MomentumY w in
      let w := set_vars (set_keepMovingY (Some idY) (vars w)) w in
      let w := set_state (set_isDragging false false (internalState w)) w in
      if applyRubberBandEffect opts then
        let w := set_ref (Some (set_childNodes (snapBack <$> childNodes el) el)) w in
        let '(idR, w) := setTimer RecoverChildStyle w in
        set_vars (set_rubberBandAnimationTimer (Some idR) (vars w)) w
      else w
  end.

(** *** Mouse handlers *)

Definition getIsMousePressActive (buttonsCode : Z) : bool :=
  match activeMouseButton opts with
  | Left => Z.eqb buttonsCode 1
  | Middle => Z.eqb buttonsCode 4
  | Right => Z.eqb buttonsCode 2
  end.

Definition onMouseDown (buttons : Z) (clientX clientY : number) (w : World)
    : World :=
  let isMouseActive := getIsMousePressActive buttons in
  match ref_current w with
  | Some _ =>
      if isMouseActive then
        let s := internalState w in
        set_state
          (mkState true (isDraggingX s) (isDraggingY s) clientX clientY
             clientX clientY (scrollSpeedX s) (scrollSpeedY s)
             (lastScrollX s) (lastScrollY s)) w
      else w
  | None => w
  end.

(** [isDraggingConfirmed] of [onMouseUp] *)
Definition isDraggingConfirmed (s : InternalState) (clientX clientY : number)
    : bool :=
  let isDragging := isDraggingX s || isDraggingY s in
  let dx := initialMouseX s - clientX in
  let dy := initialMouseY s - clientY in
  let isMotionIntentional :=
    gt (Math_abs dx) (safeDisplacement opts)
    || gt (Math_abs dy) (safeDisplacement opts) in
  isDragging && isMotionIntentional.

Definition restoreCursor (snap : option Snapshot) (i : nat) (child : ChildNode)
    : ChildNode :=
  match snap with
  | Some sn =>
      if isHTMLElement child then
        child_set_style
          (assign set_cursor (cursorStyleOfChildElements sn !! i) (style child))
          child
      else child
  | None => child
  end.

Definition onMouseUp (clientX clientY : number) (w : World) : World :=
  match ref_current w with
  | None => w
  | Some el =>
      let s := internalState w in
      let confirmed := isDraggingConfirmed s clientX clientY in
      let children :=
        if confirmed then child_set_clickPrevented true <$> childNodes el
        else child_set_clickPrevented false <$> childNodes el in
      let w :=
        set_state
          (mkState false (isDraggingX s) (isDraggingY s) (initialMouseX s)
             (initialMouseY s) 0 0 (scrollSpeedX s) (scrollSpeedY s)
             (lastScrollX s) (lastScrollY s)) w in
      let snap := snapshot (vars w) in
      let el :=
        set_el_style
          (assign set_cursor (cursorStyleOfWrapperElement <$> snap) (el_style el))
          el in
      let el := set_childNodes (imap (restoreCursor snap) children) el in
      let w := set_ref (Some el) w in
      if confirmed then callbackMomentum w else w
  end.

Definition grab (child : ChildNode) : ChildNode :=
  if isHTMLElement child then
    child_set_style (set_cursor "grabbing" (style child)) child
  else child.

(** [isAtAnEdge] of [onMouseMove] *)
Definition isAtAnEdge (c : Closure) (el : HTMLElement) : bool :=
  let isAtLeft := le (scrollLeft el) 0 && isScrollableAlongX c in
  let isAtRight :=
    ge (scrollLeft el) (maxHorizontalScroll c) && isScrollableAlongX c in
  let isAtTop := le (scrollTop el) 0 && isScrollableAlongY c in
  let isAtBottom :=
    ge (scrollTop el) (maxVerticalScroll c) && isScrollableAlongY c in
  isAtLeft || isAtRight || isAtTop || isAtBottom.

Definition onMouseMove (clientX clientY : number) (w : World) : World :=
  match isMouseDown (internalState w), ref_current w with
  | true, Some el =>
      let s := internalState w in
      let dx := lastMouseX s - clientX in
      let dy := lastMouseY s - clientY in
      let w :=
        set_state
          (mkState (isMouseDown s) true true (initialMouseX s)
             (initialMouseY s) clientX clientY (dx / timing) (dy / timing)
             (lastScrollX s) (lastScrollY s)) w in
      let el := set_el_style (set_cursor "grabbing" (el_style el)) el in
      let el := set_childNodes (grab <$> childNodes el) el in
      let w := set_ref (Some el) w in
      let w :=
        if isAtAnEdge (vars w) el && applyRubberBandEffect opts
        then rubberBandCallback clientX clientY w else w in
      runScroll w
  | _, _ => w
  end.

Definition handleResize (w : World) : World :=
  match ref_current w with
  | Some el =>
      set_vars
        (set_maxScroll (scrollWidth el - clientWidth el)
           (scrollHeight el - clientHeight el) (vars w)) w
  | None => w
  end.

(** *** Events

    [MouseMove], [MouseUp] and [Resize] reach the hook through the
    window listeners of the effect; [MouseDown] through the handler the
    hook returns; a timer fires its callback while it is in the table
    (an interval stays, a timeout leaves on firing).  [Host] stands for
    whatever the host or the platform does to [ref.current] between
    two handlers. *)
Inductive Event :=
| MouseDown (buttons : Z) (clientX clientY : number)
| MouseMove (clientX clientY : number)
| MouseUp (clientX clientY : number)
| Resize
| TimerFires (id : nat)
| Host (r : option HTMLElement)
| Unmount.

Definition fire (id : nat) (w : World) : World :=
  match timers w !! id with
  | Some MomentumX => momentumX w
  | Some MomentumY => momentumY w
  | Some RecoverChildStyle =>
      recoverChildStyle (set_timers (delete id (timers w)) (nextTimer w) w)
  | None => w
  end.

Definition step (w : World) (e : Event) : World :=
  match e with
  | MouseDown b x y => onMouseDown b x y w
  | MouseMove x y => if listening w then onMouseMove x y w else w
  | MouseUp x y => if listening w then onMouseUp x y w else w
  | Resize => if listening w then handleResize w else w
  | TimerFires id => fire id w
  | Host r => set_ref r w
  | Unmount => cleanup w
  end.

Definition run (w : World) (es : list Event) : World := foldl step w es.

(** ** The vocabulary of the properties *)

(** Events that are the host's doing, and runs without them. *)
Definition hostFree (e : Event) : Prop :=
  match e with
  | Host _ | Unmount => False
  | _ => True
  end.

(** *** Reachable worlds *)

(** The worlds the controller can be in: mounted on any [ref], then any
    sequence of events. *)
Inductive reachable : World -> Prop :=
| reachable_mount (r : option HTMLElement) : reachable (mount r)
| reachable_step (w : World) (e : Event) :
    reachable w -> reachable (step w e).

(** *** Timers firing *)






(** The stop test of the X interval, on the world the tick starts from:
    the decayed speed, the pressed flag, and the horizontal offset read
    before the tick's own scroll write. *)
Definition stopsX (w : World) (el : HTMLElement) : Prop :=
  Qabs (scrollSpeedX (internalState w) * decayRate opts)
    < minimumSpeedToTriggerMomentum
  \/ isMouseDown (internalState w) = true
  \/ scrollLeft el <= 0
  \/ maxHorizontalScroll (vars w) <= scrollLeft el.

Definition stopsY (w : World) (el : HTMLElement) : Prop :=
  Qabs (scrollSpeedY (internalState w) * decayRate opts)
    < minimumSpeedToTriggerMomentum
  \/ isMouseDown (internalState w) = true
  \/ scrollTop el <= 0
  \/ maxVerticalScroll (vars w) <= scrollTop el.

(** The world a momentum tick leaves when it decides to go on. *)
Definition decayedX (w : World) : World :=
  runScroll
    (set_state
       (set_scrollSpeedX (scrollSpeedX (internalState w) * decayRate opts)
          (internalState w)) w).

Definition decayedY (w : World) : World :=
  runScroll
    (set_state
       (set_scrollSpeedY (scrollSpeedY (internalState w) * decayRate opts)
          (internalState w)) w).


(** *** Handles, speeds and children *)

(** The handle in [keepMovingX] never names a timer of another kind, and
    likewise for [keepMovingY]. *)
Definition handlesOk (w : World) : Prop :=
  (forall i cb, keepMovingX (vars w) = Some i -> timers w !! i = Some cb ->
                cb = MomentumX)
  /\ (forall i cb, keepMovingY (vars w) = Some i -> timers w !! i = Some cb ->
                   cb = MomentumY).

(** A speed is non-zero only under a set dragging flag or a pending
    interval of its axis. *)
Definition speedsOk (w : World) : Prop :=
  (isDraggingX (internalState w) = true
   \/ (exists id, timers w !! id = Some MomentumX)
   \/ scrollSpeedX (internalState w) == 0)
  /\ (isDraggingY (internalState w) = true
      \/ (exists id, timers w !! id = Some MomentumY)
      \/ scrollSpeedY (internalState w) == 0).

(** The child list after [onMouseUp], node by node. *)
Definition afterMouseUp (w : World) (x y : number) (i : nat)
    (child : ChildNode) : ChildNode :=
  let confirmed := isDraggingConfirmed (internalState w) x y in
  let child :=
    restoreCursor (snapshot (vars w)) i
      (child_set_clickPrevented confirmed child) in
  if confirmed && applyRubberBandEffect opts then snapBack child else child.

(** A node after handlers have written to it: still the same kind of
    node, and a node that is not an HTMLElement still has its inline
    cursor. *)
Definition written (c c' : ChildNode) : Prop :=
  isHTMLElement c' = isHTMLElement c
  /\ (isHTMLElement c = false -> cursor (style c') = cursor (style c)).

(** The world still holds the snapshot taken of [el0], and a container
    whose children are those of [el0], written to. *)
Definition tracks (el0 : HTMLElement) (w : World) : Prop :=
  snapshot (vars w) = Some (capture el0)
  /\ exists el,
       ref_current w = Some el
       /\ Forall2 written (childNodes el0) (childNodes el).

(** *** Presses, listeners and clicks *)

(** An event that is not a press with the active button. *)
Definition unpressed (e : Event) : Prop :=
  match e with
  | MouseDown buttons _ _ => getIsMousePressActive buttons = false
  | _ => True
  end.

(** The events that reach the hook through the window listeners. *)
Definition windowEvent (e : Event) : Prop :=
  match e with
  | MouseMove _ _ | MouseUp _ _ | Resize => True
  | _ => False
  end.

(** For each child, in order, whether [preventClick] is registered. *)
Definition suppressors (w : World) : option (list bool) :=
  (λ el, clickPrevented <$> childNodes el) <$> ref_current w.

(** For each child, in order, its inline transform and transition. *)
Definition transforms (w : World) : option (list (string * string)) :=
  (λ el, (λ child, (transform (style child), transition (style child)))
           <$> childNodes el) <$> ref_current w.

(** *** Timer handles *)

(** A pending interval, running [cb], that none of the three handle
    variables of the hook names. *)
Definition forgotten (id : nat) (cb : TimerCallback) (w : World) : Prop :=
  timers w !! id = Some cb
  /\ cb <> RecoverChildStyle
  /\ keepMovingX (vars w) <> Some id
  /\ keepMovingY (vars w) <> Some id
  /\ rubberBandAnimationTimer (vars w) <> Some id
  /\ (id < nextTimer w)%nat.

(** Every pending timer carries a handle the platform has handed out,
    and so does [rubberBandAnimationTimer], which names a timeout if it
    names a pending timer at all. *)
Definition handlesFresh (w : World) : Prop :=
  (forall i cb, timers w !! i = Some cb -> (i < nextTimer w)%nat)
  /\ (forall i,
        rubberBandAnimationTimer (vars w) = Some i ->
        (i < nextTimer w)%nat
        /\ forall cb, timers w !! i = Some cb -> cb = RecoverChildStyle).

(** *** Fields that are only written *)

(** The world with [lastScrollX] and [lastScrollY] blanked. *)
Definition withoutLastScroll (w : World) : World :=
  let s := internalState w in
  set_state
    (mkState (isMouseDown s) (isDraggingX s) (isDraggingY s)
       (initialMouseX s) (initialMouseY s) (lastMouseX s) (lastMouseY s)
       (scrollSpeedX s) (scrollSpeedY s) 0 0) w.

(** ** Properties *)

#[local] Arguments Qplus : simpl never.
#[local] Arguments Qminus : simpl never.
#[local] Arguments Qmult : simpl never.
#[local] Arguments Qdiv : simpl never.
#[local] Arguments Qopp : simpl never.
#[local] Arguments Qabs : simpl never.
#[local] Arguments Qle_bool : simpl never.
#[local] Arguments Qpower : simpl never.
#[local] Arguments timing : simpl never.

Lemma le_true (a b : number) : le a b = true <-> a <= b.
Proof. apply Qle_bool_iff. Qed.

Lemma lt_true (a b : number) : lt a b = true <-> a < b.
Proof.
  unfold lt. rewrite negb_true_iff, <- not_true_iff_false, Qle_bool_iff.
  split; [apply Qnot_le_lt | apply Qlt_not_le].
Qed.

Lemma lt_false (a b : number) : lt a b = false <-> ~ a < b.
Proof. rewrite <- lt_true. symmetry. apply not_true_iff_false. Qed.

Lemma gt_true (a b : number) : gt a b = true <-> b < a.
Proof. apply lt_true. Qed.

(** *** The live-scroll applier *)

(** C1: with the container present [runScroll] moves each scroll offset
    by [scrollSpeed * timing] and records the written offsets in
    [lastScrollX]/[lastScrollY]; without a container it changes
    nothing. *)
Theorem runScroll_applies_speed (w : World) :
  (forall el, ref_current w = Some el ->
     exists el',
       ref_current (runScroll w) = Some el'
       /\ scrollLeft el' = scrollLeft el + scrollSpeedX (internalState w) * timing
       /\ scrollTop el' = scrollTop el + scrollSpeedY (internalState w) * timing
       /\ lastScrollX (internalState (runScroll w)) = scrollLeft el'
       /\ lastScrollY (internalState (runScroll w)) = scrollTop el')
  /\ (ref_current w = None -> runScroll w = w).
Proof.
  unfold runScroll. split.
  - intros el ->. eexists. repeat split.
  - now intros ->.
Qed.

(** *** Pointer-up *)

Lemma isDraggingConfirmed_true (s : InternalState) (x y : number) :
  isDraggingConfirmed s x y = true <->
  (isDraggingX s = true \/ isDraggingY s = true)
  /\ (safeDisplacement opts < Qabs (initialMouseX s - x)
      \/ safeDisplacement opts < Qabs (initialMouseY s - y)).
Proof.
  unfold isDraggingConfirmed, Math_abs.
  now rewrite andb_true_iff, !orb_true_iff, !gt_true.
Qed.

Lemma onMouseUp_ref (w : World) (el : HTMLElement) (x y : number) :
  ref_current w = Some el ->
  exists el',
    ref_current (onMouseUp x y w) = Some el'
    /\ childNodes el' = imap (afterMouseUp w x y) (childNodes el)
    /\ el_style el' =
         assign set_cursor (cursorStyleOfWrapperElement <$> snapshot (vars w))
           (el_style el)
    /\ scrollLeft el' = scrollLeft el /\ scrollTop el' = scrollTop el.
Proof.
  intros Href. unfold onMouseUp, afterMouseUp. rewrite Href.
  destruct (isDraggingConfirmed (internalState w) x y) eqn:Hc; cbn [andb].
  - unfold callbackMomentum. cbn.
    destruct (applyRubberBandEffect opts); cbn; eexists; (split; [reflexivity|]);
      cbn; repeat split.
    + now rewrite fmap_imap, imap_fmap.
    + now rewrite imap_fmap.
  - eexists; split; [reflexivity|]. cbn. repeat split.
    now rewrite imap_fmap.
Qed.

Lemma afterMouseUp_clickPrevented (w : World) (x y : number) (i : nat)
    (child : ChildNode) :
  clickPrevented (afterMouseUp w x y i child)
  = isDraggingConfirmed (internalState w) x y.
Proof.
  unfold afterMouseUp, restoreCursor, snapBack.
  destruct (_ && _), (snapshot (vars w)); cbn;
    destruct (isHTMLElement child); reflexivity.
Qed.

(** C2: on pointer-up with the container present, the two momentum
    intervals are created and every child gets the click suppressor
    exactly when a dragging flag is set and the displacement from the
    press position exceeds [safeDisplacement] on some axis; otherwise
    no timer is created and every child is left without suppressor. *)
Theorem pointer_up_confirms_drag (w : World) (el : HTMLElement)
    (x y : number) :
  ref_current w = Some el ->
  let s := internalState w in
  let confirmed :=
    (isDraggingX s = true \/ isDraggingY s = true)
    /\ (safeDisplacement opts < Qabs (initialMouseX s - x)
        \/ safeDisplacement opts < Qabs (initialMouseY s - y)) in
  let w' := onMouseUp x y w in
  exists el',
    ref_current w' = Some el'
    /\ length (childNodes el') = length (childNodes el)
    /\ (confirmed ->
          keepMovingX (vars w') = Some (nextTimer w)
          /\ timers w' !! nextTimer w = Some MomentumX
          /\ keepMovingY (vars w') = Some (S (nextTimer w))
          /\ timers w' !! S (nextTimer w) = Some MomentumY
          /\ Forall (λ child, clickPrevented child = true) (childNodes el'))
    /\ (~ confirmed ->
          timers w' = timers w
          /\ nextTimer w' = nextTimer w
          /\ keepMovingX (vars w') = keepMovingX (vars w)
          /\ keepMovingY (vars w') = keepMovingY (vars w)
          /\ Forall (λ child, clickPrevented child = false) (childNodes el')).
Proof.
  intros Href s confirmed w'.
  destruct (onMouseUp_ref w el x y Href) as (el' & Hel' & Hch & _).
  exists el'. split; [exact Hel'|]. split; [now rewrite Hch, length_imap|].
  assert (Hall : Forall (λ child, clickPrevented child
                         = isDraggingConfirmed s x y) (childNodes el')).
  { rewrite Hch. apply Forall_lookup. intros i c.
    rewrite list_lookup_imap. destruct (childNodes el !! i); [|discriminate].
    intros [= <-]. apply afterMouseUp_clickPrevented. }
  pose proof (isDraggingConfirmed_true s x y) as Hiff. fold confirmed in Hiff.
  subst w'. unfold onMouseUp in *. rewrite Href in *. fold s in Hall |- *.
  destruct (isDraggingConfirmed s x y).
  - split; [intros _ | intros Hn; exfalso; apply Hn, Hiff; reflexivity].
    unfold callbackMomentum. cbn.
    destruct (applyRubberBandEffect opts); cbn; repeat split; try exact Hall.
    + rewrite !lookup_insert_ne by lia. apply lookup_insert_eq.
    + rewrite lookup_insert_ne by lia. apply lookup_insert_eq.
    + rewrite lookup_insert_ne by lia. apply lookup_insert_eq.
    + apply lookup_insert_eq.
  - split; [intros Hc; apply Hiff in Hc; discriminate | intros _].
    repeat split. exact Hall.
Qed.

(** *** Momentum ticks *)

Lemma momentumX_cases (w : World) (el : HTMLElement) :
  ref_current w = Some el ->
  (stopsX w el
   /\ momentumX w =
      clearTimer (keepMovingX (vars w))
        (set_state (set_scrollSpeedX 0 (internalState (decayedX w)))
           (decayedX w)))
  \/ (~ stopsX w el /\ momentumX w = decayedX w).
Proof.
  intros Href. unfold momentumX, decayedX, stopsX, Math_abs, ge, runScroll.
  cbn. rewrite !Href. cbn.
  destruct (lt _ _) eqn:Hlt; cbn.
  { left. rewrite lt_true in Hlt. auto. }
  rewrite lt_false in Hlt.
  destruct (isMouseDown (internalState w)); cbn; [left; auto|].
  destruct (le (scrollLeft el) 0) eqn:Hl; cbn.
  { left. rewrite le_true in Hl. auto. }
  destruct (le (maxHorizontalScroll (vars w)) (scrollLeft el)) eqn:Hr.
  { left. rewrite le_true in Hr. auto. }
  right. split; [|reflexivity].
  intros [H|[H|[H|H]]]; try (now apply Hlt); try discriminate;
    apply le_true in H; congruence.
Qed.

Lemma momentumY_cases (w : World) (el : HTMLElement) :
  ref_current w = Some el ->
  (stopsY w el
   /\ momentumY w =
      clearTimer (keepMovingY (vars w))
        (set_state (set_scrollSpeedY 0 (internalState (decayedY w)))
           (decayedY w)))
  \/ (~ stopsY w el /\ momentumY w = decayedY w).
Proof.
  intros Href. unfold momentumY, decayedY, stopsY, Math_abs, ge, runScroll.
  cbn. rewrite !Href. cbn.
  destruct (lt _ _) eqn:Hlt; cbn.
  { left. rewrite lt_true in Hlt. auto. }
  rewrite lt_false in Hlt.
  destruct (isMouseDown (internalState w)); cbn; [left; auto|].
  destruct (le (scrollTop el) 0) eqn:Hl; cbn.
  { left. rewrite le_true in Hl. auto. }
  destruct (le (maxVerticalScroll (vars w)) (scrollTop el)) eqn:Hr.
  { left. rewrite le_true in Hr. auto. }
  right. split; [|reflexivity].
  intros [H|[H|[H|H]]]; try (now apply Hlt); try discriminate;
    apply le_true in H; congruence.
Qed.

Lemma fire_momentumX (w : World) (id : nat) :
  timers w !! id = Some MomentumX -> fire id w = momentumX w.
Proof. unfold fire. now intros ->. Qed.

Lemma fire_momentumY (w : World) (id : nat) :
  timers w !! id = Some MomentumY -> fire id w = momentumY w.
Proof. unfold fire. now intros ->. Qed.

Lemma fire_idle (w : World) (id : nat) :
  timers w !! id = None -> fire id w = w.
Proof. unfold fire. now intros ->. Qed.

Lemma X_tick_decision (w : World) (el : HTMLElement) (id : nat) :
  ref_current w = Some el ->
  keepMovingX (vars w) = Some id ->
  timers w !! id = Some MomentumX ->
  let w' := fire id w in
  (stopsX w el ->
     timers w' !! id = None /\ scrollSpeedX (internalState w') = 0)
  /\ (~ stopsX w el ->
        timers w' !! id = Some MomentumX
        /\ scrollSpeedX (internalState w')
           = scrollSpeedX (internalState w) * decayRate opts)
  /\ scrollSpeedY (internalState w') = scrollSpeedY (internalState w)
  /\ (forall id', id' <> id -> timers w' !! id' = timers w !! id').
Proof.
  intros Href Hk Hid w'. subst w'. rewrite (fire_momentumX _ _ Hid).
  destruct (momentumX_cases w el Href) as [[Hs ->]|[Hs ->]];
    unfold decayedX, runScroll; cbn; rewrite ?Href, ?Hk; cbn.
  - split; [intros _; split; [apply lookup_delete_eq | reflexivity]|].
    split; [tauto|]. split; [reflexivity|].
    intros id' Hne. now apply lookup_delete_ne.
  - split; [tauto|]. split; [intros _; split; [assumption | reflexivity]|].
    split; reflexivity.
Qed.

Lemma Y_tick_decision (w : World) (el : HTMLElement) (id : nat) :
  ref_current w = Some el ->
  keepMovingY (vars w) = Some id ->
  timers w !! id = Some MomentumY ->
  let w' := fire id w in
  (stopsY w el ->
     timers w' !! id = None /\ scrollSpeedY (internalState w') = 0)
  /\ (~ stopsY w el ->
        timers w' !! id = Some MomentumY
        /\ scrollSpeedY (internalState w')
           = scrollSpeedY (internalState w) * decayRate opts)
  /\ scrollSpeedX (internalState w') = scrollSpeedX (internalState w)
  /\ (forall id', id' <> id -> timers w' !! id' = timers w !! id').
Proof.
  intros Href Hk Hid w'. subst w'. rewrite (fire_momentumY _ _ Hid).
  destruct (momentumY_cases w el Href) as [[Hs ->]|[Hs ->]];
    unfold decayedY, runScroll; cbn; rewrite ?Href, ?Hk; cbn.
  - split; [intros _; split; [apply lookup_delete_eq | reflexivity]|].
    split; [tauto|]. split; [reflexivity|].
    intros id' Hne. now apply lookup_delete_ne.
  - split; [tauto|]. split; [intros _; split; [assumption | reflexivity]|].
    split; reflexivity.
Qed.

Lemma X_tick_stops_iff (w : World) (el : HTMLElement) (id : nat) :
  ref_current w = Some el ->
  keepMovingX (vars w) = Some id ->
  timers w !! id = Some MomentumX ->
  timers (fire id w) !! id = None <-> stopsX w el.
Proof.
  intros Href Hk Hid.
  destruct (X_tick_decision w el id Href Hk Hid) as (Hs & Hg & _).
  destruct (momentumX_cases w el Href) as [[H _]|[H _]].
  - split; [easy | intros _; now apply Hs].
  - split; [|easy]. intros Hnone. destruct (Hg H) as [Hsome _]. congruence.
Qed.

Lemma Y_tick_stops_iff (w : World) (el : HTMLElement) (id : nat) :
  ref_current w = Some el ->
  keepMovingY (vars w) = Some id ->
  timers w !! id = Some MomentumY ->
  timers (fire id w) !! id = None <-> stopsY w el.
Proof.
  intros Href Hk Hid.
  destruct (Y_tick_decision w el id Href Hk Hid) as (Hs & Hg & _).
  destruct (momentumY_cases w el Href) as [[H _]|[H _]].
  - split; [easy | intros _; now apply Hs].
  - split; [|easy]. intros Hnone. destruct (Hg H) as [Hsome _]. congruence.
Qed.

(** C4 (amended): a tick of the interval held in [keepMovingX] clears
    that interval and zeroes [scrollSpeedX] exactly when the decayed
    speed is below 0.05 in absolute value, or the pointer is pressed, or
    the horizontal offset read before the tick's scroll write is at most
    0 or at least [maxHorizontalScroll], whether or not the axis is
    scrollable; otherwise the interval stays and the speed is the
    decayed one.  The tick does not touch the other axis's speed nor any
    other timer.  The same holds for Y. *)
Theorem momentum_tick_stop_decision (w : World) (el : HTMLElement) :
  ref_current w = Some el ->
  (forall id,
     keepMovingX (vars w) = Some id -> timers w !! id = Some MomentumX ->
     let w' := fire id w in
     (stopsX w el ->
        timers w' !! id = None /\ scrollSpeedX (internalState w') = 0)
     /\ (~ stopsX w el ->
           timers w' !! id = Some MomentumX
           /\ scrollSpeedX (internalState w')
              = scrollSpeedX (internalState w) * decayRate opts)
     /\ scrollSpeedY (internalState w') = scrollSpeedY (internalState w)
     /\ (forall id', id' <> id -> timers w' !! id' = timers w !! id'))
  /\ (forall id,
        keepMovingY (vars w) = Some id -> timers w !! id = Some MomentumY ->
        let w' := fire id w in
        (stopsY w el ->
           timers w' !! id = None /\ scrollSpeedY (internalState w') = 0)
        /\ (~ stopsY w el ->
              timers w' !! id = Some MomentumY
              /\ scrollSpeedY (internalState w')
                 = scrollSpeedY (internalState w) * decayRate opts)
        /\ scrollSpeedX (internalState w') = scrollSpeedX (internalState w)
        /\ (forall id', id' <> id -> timers w' !! id' = timers w !! id')).
Proof.
  intros Href. split; intros id Hk Hid.
  - now apply X_tick_decision.
  - now apply Y_tick_decision.
Qed.

(** *** What the handlers leave alone *)

Ltac handlers :=
  unfold step, fire, onMouseDown, onMouseMove, onMouseUp, handleResize,
    cleanup, callbackMomentum, momentumX, momentumY, recoverChildStyle,
    rubberBandCallback, runScroll, clearTimer, setTimer;
  cbn;
  repeat (case_match; cbn).

(** Only the layout effect writes the snapshot and the scrollability
    flags, and only it and [handleResize] write the maxima. *)
Lemma step_static (w : World) (e : Event) :
  snapshot (vars (step w e)) = snapshot (vars w)
  /\ isScrollableAlongX (vars (step w e)) = isScrollableAlongX (vars w)
  /\ isScrollableAlongY (vars (step w e)) = isScrollableAlongY (vars w)
  /\ (e <> Resize ->
      maxHorizontalScroll (vars (step w e)) = maxHorizontalScroll (vars w)
      /\ maxVerticalScroll (vars (step w e)) = maxVerticalScroll (vars w)).
Proof.
  destruct e; handlers; repeat split; try reflexivity; congruence.
Qed.

Lemma run_cons (w : World) (e : Event) (es : list Event) :
  run w (e :: es) = run (step w e) es.
Proof. reflexivity. Qed.

Lemma run_app (w : World) (es1 es2 : list Event) :
  run w (es1 ++ es2) = run (run w es1) es2.
Proof. apply foldl_app. Qed.

Lemma run_static (w : World) (es : list Event) :
  snapshot (vars (run w es)) = snapshot (vars w)
  /\ isScrollableAlongX (vars (run w es)) = isScrollableAlongX (vars w)
  /\ isScrollableAlongY (vars (run w es)) = isScrollableAlongY (vars w)
  /\ (Forall (λ e, e <> Resize) es ->
      maxHorizontalScroll (vars (run w es)) = maxHorizontalScroll (vars w)
      /\ maxVerticalScroll (vars (run w es)) = maxVerticalScroll (vars w)).
Proof.
  revert w. induction es as [|e es IH]; intros w; [easy|].
  rewrite run_cons.
  destruct (IH (step w e)) as (Hs & Hx & Hy & Hmax).
  destruct (step_static w e) as (Hs' & Hx' & Hy' & Hmax').
  split; [congruence|]. split; [congruence|]. split; [congruence|].
  intros Hall. inversion_clear Hall as [|? ? He Hes].
  destruct (Hmax Hes) as [Hh Hv], (Hmax' He) as [Hh' Hv'].
  split; congruence.
Qed.

(** *** Resize *)

Lemma isAtAnEdge_true (c : Closure) (el : HTMLElement) :
  isAtAnEdge c el = true <->
  isScrollableAlongX c = true
  /\ (scrollLeft el <= 0 \/ maxHorizontalScroll c <= scrollLeft el)
  \/ isScrollableAlongY c = true
     /\ (scrollTop el <= 0 \/ maxVerticalScroll c <= scrollTop el).
Proof.
  unfold isAtAnEdge, ge.
  rewrite !orb_true_iff, !andb_true_iff, !le_true. tauto.
Qed.

(** C8 (amended): a resize that finds the container recomputes
    [maxHorizontalScroll] and [maxVerticalScroll] as content extent minus
    visible extent and leaves the two scrollability flags as the layout
    effect set them; until the next resize no event changes the maxima,
    and the edge tests of every later pointer move and momentum tick
    read them. *)
Theorem resize_recomputes_maxima (w : World) (el : HTMLElement) :
  listening w = true ->
  ref_current w = Some el ->
  let w1 := step w Resize in
  let maxX := scrollWidth el - clientWidth el in
  let maxY := scrollHeight el - clientHeight el in
  maxHorizontalScroll (vars w1) = maxX
  /\ maxVerticalScroll (vars w1) = maxY
  /\ isScrollableAlongX (vars w1) = isScrollableAlongX (vars w)
  /\ isScrollableAlongY (vars w1) = isScrollableAlongY (vars w)
  /\ forall es,
       Forall (λ e, e <> Resize) es ->
       let w2 := run w1 es in
       let s := internalState w2 in
       maxHorizontalScroll (vars w2) = maxX
       /\ maxVerticalScroll (vars w2) = maxY
       /\ forall el2 id,
            ref_current w2 = Some el2 ->
            (isAtAnEdge (vars w2) el2 = true <->
             isScrollableAlongX (vars w) = true
             /\ (scrollLeft el2 <= 0 \/ maxX <= scrollLeft el2)
             \/ isScrollableAlongY (vars w) = true
                /\ (scrollTop el2 <= 0 \/ maxY <= scrollTop el2))
            /\ (keepMovingX (vars w2) = Some id ->
                timers w2 !! id = Some MomentumX ->
                timers (fire id w2) !! id = None <->
                Qabs (scrollSpeedX s * decayRate opts)
                  < minimumSpeedToTriggerMomentum
                \/ isMouseDown s = true
                \/ scrollLeft el2 <= 0
                \/ maxX <= scrollLeft el2)
            /\ (keepMovingY (vars w2) = Some id ->
                timers w2 !! id = Some MomentumY ->
                timers (fire id w2) !! id = None <->
                Qabs (scrollSpeedY s * decayRate opts)
                  < minimumSpeedToTriggerMomentum
                \/ isMouseDown s = true
                \/ scrollTop el2 <= 0
                \/ maxY <= scrollTop el2).
Proof.
  intros Hl Href w1 maxX maxY.
  assert (Hx : maxHorizontalScroll (vars w1) = maxX)
    by (subst w1; cbn; now rewrite Hl; unfold handleResize; rewrite Href).
  assert (Hy : maxVerticalScroll (vars w1) = maxY)
    by (subst w1; cbn; now rewrite Hl; unfold handleResize; rewrite Href).
  destruct (step_static w Resize) as (_ & Hfx & Hfy & _).
  do 4 (split; [assumption|]).
  intros es Hes w2 s.
  destruct (run_static w1 es) as (_ & Hfx2 & Hfy2 & Hmax).
  destruct (Hmax Hes) as [Hx2 Hy2]. fold w2 in Hx2, Hy2, Hfx2, Hfy2.
  rewrite Hx in Hx2. rewrite Hy in Hy2.
  do 2 (split; [assumption|]).
  intros el2 id Href2. split; [|split; intros Hk Hid].
  - rewrite isAtAnEdge_true, Hx2, Hy2, Hfx2, Hfy2.
    fold w1 in Hfx, Hfy. now rewrite Hfx, Hfy.
  - rewrite (X_tick_stops_iff _ _ _ Href2 Hk Hid). unfold stopsX.
    now rewrite Hx2.
  - rewrite (Y_tick_stops_iff _ _ _ Href2 Hk Hid). unfold stopsY.
    now rewrite Hy2.
Qed.

(** *** Timer handles in reachable worlds *)

Lemma lookup_delete_Some_inv (m : gmap nat TimerCallback) (i j : nat)
    (cb : TimerCallback) :
  delete i m !! j = Some cb -> m !! j = Some cb.
Proof. rewrite lookup_delete_Some. tauto. Qed.

Lemma handlesOk_ext (w w' : World) :
  vars w = vars w' -> timers w = timers w' -> handlesOk w -> handlesOk w'.
Proof. unfold handlesOk. now intros -> ->. Qed.

Lemma handlesOk_clearTimer (h : option nat) (w : World) :
  handlesOk w -> handlesOk (clearTimer h w).
Proof.
  intros [Hx Hy]. destruct h as [i|]; [|easy].
  split; cbn; intros j cb Hk Hj; apply lookup_delete_Some_inv in Hj; eauto.
Qed.

Lemma handlesOk_callbackMomentum (w : World) :
  handlesOk w -> handlesOk (callbackMomentum w).
Proof.
  intros Hok. unfold callbackMomentum.
  destruct (ref_current w); [|exact Hok]. cbn.
  destruct (applyRubberBandEffect opts); cbn; split; intros i cb [= <-] Hcb;
    cbn in Hcb; rewrite ?lookup_insert_ne in Hcb by lia;
    rewrite lookup_insert_eq in Hcb; congruence.
Qed.

Lemma fire_handlesOk (i : nat) (w : World) :
  handlesOk w -> handlesOk (fire i w).
Proof.
  intros Hok. unfold fire.
  destruct (timers w !! i) as [[]|] eqn:Hid; [| | |exact Hok].
  - unfold momentumX, runScroll. cbn.
    repeat (case_match; cbn); try exact Hok.
    all: eapply handlesOk_ext;
      [| |apply (handlesOk_clearTimer (keepMovingX (vars w))), Hok];
      now destruct (keepMovingX (vars w)).
  - unfold momentumY, runScroll. cbn.
    repeat (case_match; cbn); try exact Hok.
    all: eapply handlesOk_ext;
      [| |apply (handlesOk_clearTimer (keepMovingY (vars w))), Hok];
      now destruct (keepMovingY (vars w)).
  - apply (handlesOk_clearTimer (Some i)) in Hok.
    unfold recoverChildStyle. cbn. repeat case_match; exact Hok.
Qed.

Lemma step_handlesOk (w : World) (e : Event) :
  handlesOk w -> handlesOk (step w e).
Proof.
  intros Hok. destruct e; cbn.
  - unfold onMouseDown. repeat case_match; exact Hok.
  - unfold onMouseMove, rubberBandCallback, runScroll.
    repeat (case_match; cbn); exact Hok.
  - destruct (listening w); [|exact Hok]. unfold onMouseUp.
    destruct (ref_current w); [|exact Hok].
    destruct (isDraggingConfirmed _ _ _); [|exact Hok].
    apply handlesOk_callbackMomentum. exact Hok.
  - unfold handleResize. repeat case_match; exact Hok.
  - now apply fire_handlesOk.
  - exact Hok.
  - unfold cleanup. now do 3 apply handlesOk_clearTimer.
Qed.

Lemma reachable_handlesOk (w : World) : reachable w -> handlesOk w.
Proof.
  induction 1 as [r|w e _ IH]; [|now apply step_handlesOk].
  unfold mount, useEffect, useLayoutEffect, handlesOk.
  repeat (case_match; cbn); split; intros; discriminate.
Qed.

Lemma run_reachable (w : World) (es : list Event) :
  reachable w -> reachable (run w es).
Proof.
  revert w. induction es as [|e es IH]; intros w Hw; [exact Hw|].
  rewrite run_cons. apply IH. now constructor.
Qed.

(** *** Decay of a momentum loop *)




Lemma fire_shrinks (i j : nat) (cb : TimerCallback) (w : World) :
  timers (fire i w) !! j = Some cb -> timers w !! j = Some cb.
Proof.
  unfold fire. destruct (timers w !! i) as [[]|] eqn:Hi; [| | |easy].
  - destruct (ref_current w) as [el|] eqn:Href;
      [|unfold momentumX; now rewrite Href].
    destruct (keepMovingX (vars w)) as [k|] eqn:Hk;
      (destruct (momentumX_cases w el Href) as [[_ ->]|[_ ->]];
       unfold decayedX, runScroll; cbn; rewrite Href, ?Hk; cbn; try easy).
    apply lookup_delete_Some_inv.
  - destruct (ref_current w) as [el|] eqn:Href;
      [|unfold momentumY; now rewrite Href].
    destruct (keepMovingY (vars w)) as [k|] eqn:Hk;
      (destruct (momentumY_cases w el Href) as [[_ ->]|[_ ->]];
       unfold decayedY, runScroll; cbn; rewrite Href, ?Hk; cbn; try easy).
    apply lookup_delete_Some_inv.
  - unfold recoverChildStyle. cbn.
    repeat case_match; cbn; apply lookup_delete_Some_inv.
Qed.






Lemma clearTimer_vars (h : option nat) (w : World) :
  vars (clearTimer h w) = vars w.
Proof. now destruct h. Qed.

Lemma clearTimer_clears (id : nat) (w : World) :
  timers (clearTimer (Some id) w) !! id = None.
Proof. apply lookup_delete_eq. Qed.

Lemma clearTimer_keeps_None (h : option nat) (id : nat) (w : World) :
  timers w !! id = None -> timers (clearTimer h w) !! id = None.
Proof.
  destruct h as [i|]; [|easy]. cbn. intros H.
  apply lookup_delete_None. now right.
Qed.

Section Loop.

Variable speed : World -> number.
Variable keepMoving : World -> option nat.
Variable callback : TimerCallback.
Variable stops : World -> HTMLElement -> Prop.

(** A decayed speed below the threshold is a stopping condition. *)
Hypothesis slow_stops : forall w el,
  Qabs (speed w * decayRate opts) < minimumSpeedToTriggerMomentum ->
  stops w el.

(** Without a container a run of the callback does nothing. *)
Hypothesis idle_tick : forall i w,
  timers w !! i = Some callback -> ref_current w = None -> fire i w = w.

(** With a container it stops the loop, clearing the interval held in
    [keepMoving], or it decays the speed. *)
Hypothesis own_tick : forall i w el,
  timers w !! i = Some callback ->
  ref_current w = Some el ->
  (exists el', ref_current (fire i w) = Some el')
  /\ keepMoving (fire i w) = keepMoving w
  /\ (stops w el
      /\ speed (fire i w) = 0
      /\ timers (fire i w) = timers (clearTimer (keepMoving w) w)
      \/ ~ stops w el
         /\ speed (fire i w) = speed w * decayRate opts
         /\ timers (fire i w) = timers w).

(** A timer that runs something else leaves the speed, the handle and
    the timers of this callback alone. *)
Hypothesis foreign_tick : forall i w,
  handlesOk w ->
  timers w !! i <> Some callback ->
  speed (fire i w) = speed w
  /\ keepMoving (fire i w) = keepMoving w
  /\ (forall el, ref_current w = Some el ->
                 exists el', ref_current (fire i w) = Some el')
  /\ (forall j, timers w !! j = Some callback ->
                timers (fire i w) !! j = Some callback).








End Loop.










(** *** Ticks without a container *)


(** *** The rubber band *)

(** C5: for every delta the displacement of a scrollable axis is
    [0.3 * size * sign(delta) * log10(1 + 0.5 * |delta| / size)], that of
    an axis that is not scrollable is 0, whatever the other axis is; and
    [rubberBandCallback] writes that displacement, for the delta of the
    pointer from the press position, as the transform of every
    HTMLElement child, leaving the scroll offsets alone. *)
Theorem rubber_band_displacement (w : World) (el : HTMLElement)
    (dx dy : number) :
  let displacementX :=
    if isScrollableAlongX (vars w) then
      (3 # 10) * clientWidth el * Math_sign dx
      * Math_log10 (1 + (5 # 10) * Qabs dx / clientWidth el)
    else 0 in
  let displacementY :=
    if isScrollableAlongY (vars w) then
      (3 # 10) * clientHeight el * Math_sign dy
      * Math_log10 (1 + (5 # 10) * Qabs dy / clientHeight el)
    else 0 in
  displacement w el dx dy = (displacementX, displacementY)
  /\ forall clientX clientY,
       ref_current w = Some el ->
       dx = clientX - initialMouseX (internalState w) ->
       dy = clientY - initialMouseY (internalState w) ->
       exists el',
         ref_current (rubberBandCallback clientX clientY w) = Some el'
         /\ scrollLeft el' = scrollLeft el
         /\ scrollTop el' = scrollTop el
         /\ forall i child,
              childNodes el !! i = Some child ->
              isHTMLElement child = true ->
              exists child',
                childNodes el' !! i = Some child'
                /\ transform (style child')
                   = translate3d displacementX displacementY.
Proof.
  intros displacementX displacementY.
  assert (Hd : displacement w el dx dy = (displacementX, displacementY)).
  { unfold displacement, displacementX, displacementY, rubberBand, Math_abs.
    destruct (isScrollableAlongX (vars w)), (isScrollableAlongY (vars w));
      reflexivity. }
  split; [exact Hd|].
  intros clientX clientY Href Hdx Hdy. unfold rubberBandCallback.
  rewrite Href, <- Hdx, <- Hdy, Hd.
  eexists. split; [reflexivity|]. cbn. split; [reflexivity|].
  split; [reflexivity|].
  intros i child Hi Hhtml. rewrite list_lookup_fmap, Hi. cbn.
  eexists. split; [reflexivity|]. now rewrite Hhtml.
Qed.

(** *** Speeds in reachable worlds *)

Lemma speedsOk_callbackMomentum (w : World) (el : HTMLElement) :
  ref_current w = Some el -> speedsOk (callbackMomentum w).
Proof.
  intros Href. unfold callbackMomentum, speedsOk. rewrite Href. cbn.
  destruct (applyRubberBandEffect opts); cbn; split; right; left.
  - exists (nextTimer w). rewrite !lookup_insert_ne by lia.
    apply lookup_insert_eq.
  - exists (S (nextTimer w)). rewrite lookup_insert_ne by lia.
    apply lookup_insert_eq.
  - exists (nextTimer w). rewrite lookup_insert_ne by lia.
    apply lookup_insert_eq.
  - exists (S (nextTimer w)). apply lookup_insert_eq.
Qed.

Lemma speedsOk_momentumX (w : World) (id : nat) :
  handlesOk w -> timers w !! id = Some MomentumX ->
  speedsOk w -> speedsOk (momentumX w).
Proof.
  intros [Hkx _] Hid [Hx Hy].
  destruct (ref_current w) as [el|] eqn:Href;
    [|unfold momentumX; rewrite Href; now split].
  destruct (keepMovingX (vars w)) as [k|] eqn:Hk;
    (destruct (momentumX_cases w el Href) as [[_ ->]|[_ ->]];
     unfold decayedX, runScroll, speedsOk; cbn; rewrite Href, ?Hk; cbn).
  - split; [right; right; reflexivity|].
    destruct Hy as [Hy|[[j Hj]|Hy]]; [now left| |now right; right].
    right; left. exists j.
    rewrite lookup_delete_ne; [exact Hj|].
    intros <-. specialize (Hkx k _ eq_refl Hj). discriminate.
  - split; [right; left; eauto | exact Hy].
  - split; [right; right; reflexivity | exact Hy].
  - split; [right; left; eauto | exact Hy].
Qed.

Lemma speedsOk_momentumY (w : World) (id : nat) :
  handlesOk w -> timers w !! id = Some MomentumY ->
  speedsOk w -> speedsOk (momentumY w).
Proof.
  intros [_ Hky] Hid [Hx Hy].
  destruct (ref_current w) as [el|] eqn:Href;
    [|unfold momentumY; rewrite Href; now split].
  destruct (keepMovingY (vars w)) as [k|] eqn:Hk;
    (destruct (momentumY_cases w el Href) as [[_ ->]|[_ ->]];
     unfold decayedY, runScroll, speedsOk; cbn; rewrite Href, ?Hk; cbn).
  - split; [|right; right; reflexivity].
    destruct Hx as [Hx|[[j Hj]|Hx]]; [now left| |now right; right].
    right; left. exists j.
    rewrite lookup_delete_ne; [exact Hj|].
    intros <-. specialize (Hky k _ eq_refl Hj). discriminate.
  - split; [exact Hx | right; left; eauto].
  - split; [exact Hx | right; right; reflexivity].
  - split; [exact Hx | right; left; eauto].
Qed.

Lemma speedsOk_recover (w : World) (id : nat) :
  timers w !! id = Some RecoverChildStyle ->
  speedsOk w ->
  speedsOk (recoverChildStyle (set_timers (delete id (timers w)) (nextTimer w) w)).
Proof.
  intros Hid [Hx Hy].
  assert (Hkeep : forall cb j, cb <> RecoverChildStyle ->
            timers w !! j = Some cb -> delete id (timers w) !! j = Some cb).
  { intros cb j Hcb Hj. rewrite lookup_delete_ne; [exact Hj|].
    intros <-. congruence. }
  unfold recoverChildStyle, speedsOk. cbn.
  repeat case_match; cbn;
    (split; [destruct Hx as [?|[[j Hj]|?]] | destruct Hy as [?|[[j Hj]|?]]];
     first [now left | now right; right
           | right; left; exists j; now apply Hkeep]).
Qed.

Lemma step_listening (w : World) (e : Event) :
  listening (step w e) = true -> listening w = true /\ e <> Unmount.
Proof.
  destruct e; handlers; intros ?; split; congruence.
Qed.

Lemma step_speedsOk (w : World) (e : Event) :
  handlesOk w ->
  (listening w = true -> speedsOk w) ->
  listening (step w e) = true -> speedsOk (step w e).
Proof.
  intros Hok Hinv Hl. destruct (step_listening w e Hl) as [Hlw Hne].
  specialize (Hinv Hlw). destruct e; cbn; rewrite ?Hlw.
  - unfold onMouseDown. repeat case_match; exact Hinv.
  - unfold onMouseMove.
    destruct (isMouseDown (internalState w)); [|exact Hinv].
    destruct (ref_current w); [|exact Hinv].
    unfold runScroll, rubberBandCallback, speedsOk.
    repeat (case_match; cbn); split; now left.
  - unfold onMouseUp. destruct (ref_current w) as [el|]; [|exact Hinv].
    destruct (isDraggingConfirmed _ _ _).
    + eapply speedsOk_callbackMomentum. reflexivity.
    + exact Hinv.
  - unfold handleResize. destruct (ref_current w); exact Hinv.
  - unfold fire. destruct (timers w !! id) as [[]|] eqn:Hid; [| | |exact Hinv].
    + now apply (speedsOk_momentumX w id).
    + now apply (speedsOk_momentumY w id).
    + now apply speedsOk_recover.
  - exact Hinv.
  - congruence.
Qed.

Lemma reachable_speedsOk (w : World) :
  reachable w -> listening w = true -> speedsOk w.
Proof.
  induction 1 as [r|w e Hw IH].
  - intros _. unfold mount, useEffect, useLayoutEffect, speedsOk.
    repeat (case_match; cbn); split; right; right; reflexivity.
  - apply step_speedsOk; [now apply reachable_handlesOk | exact IH].
Qed.

Lemma onMouseUp_speeds (w : World) (x y : number) :
  scrollSpeedX (internalState (onMouseUp x y w))
  = scrollSpeedX (internalState w)
  /\ scrollSpeedY (internalState (onMouseUp x y w))
     = scrollSpeedY (internalState w).
Proof.
  unfold onMouseUp, callbackMomentum. cbn.
  repeat (case_match; cbn); split; reflexivity.
Qed.

(** C9 (amended): in every reachable world of a mounted controller a
    speed is non-zero only if the dragging flag of its axis is set or a
    momentum interval of its axis is pending; [onMouseUp] itself never
    changes the speeds, so after a pointer-up that does not confirm a
    drag they keep the values of the last pointer move, and an axis whose
    interval stops has its speed set to zero by that tick. *)
Theorem speeds_nonzero_only_when_active (w : World) :
  reachable w ->
  (listening w = true ->
   (~ scrollSpeedX (internalState w) == 0 ->
    isDraggingX (internalState w) = true
    \/ exists id, timers w !! id = Some MomentumX)
   /\ (~ scrollSpeedY (internalState w) == 0 ->
       isDraggingY (internalState w) = true
       \/ exists id, timers w !! id = Some MomentumY))
  /\ (forall x y,
        scrollSpeedX (internalState (onMouseUp x y w))
        = scrollSpeedX (internalState w)
        /\ scrollSpeedY (internalState (onMouseUp x y w))
           = scrollSpeedY (internalState w))
  /\ (forall el id,
        ref_current w = Some el ->
        (keepMovingX (vars w) = Some id -> timers w !! id = Some MomentumX ->
         timers (fire id w) !! id = None ->
         scrollSpeedX (internalState (fire id w)) = 0)
        /\ (keepMovingY (vars w) = Some id -> timers w !! id = Some MomentumY ->
            timers (fire id w) !! id = None ->
            scrollSpeedY (internalState (fire id w)) = 0)).
Proof.
  intros Hr. split; [|split].
  - intros Hl. destruct (reachable_speedsOk w Hr Hl) as [Hx Hy].
    split; intros Hnz; [destruct Hx as [?|[?|?]] | destruct Hy as [?|[?|?]]];
      tauto.
  - intros x y. apply onMouseUp_speeds.
  - intros el id Href. split; intros Hk Hid Hnone.
    + apply (X_tick_stops_iff w el id Href Hk Hid) in Hnone.
      now apply (X_tick_decision w el id Href Hk Hid).
    + apply (Y_tick_stops_iff w el id Href Hk Hid) in Hnone.
      now apply (Y_tick_decision w el id Href Hk Hid).
Qed.

(** *** What the handlers do to the children *)

Lemma written_refl (c : ChildNode) : written c c.
Proof. now split. Qed.

Lemma written_imap (f : nat -> ChildNode -> ChildNode)
    (l0 l : list ChildNode) :
  (forall i c, written c (f i c)) ->
  Forall2 written l0 l -> Forall2 written l0 (imap f l).
Proof.
  intros Hf Hl. apply Forall2_same_length_lookup.
  apply Forall2_same_length_lookup in Hl as [Hlen Hl].
  split; [now rewrite length_imap|].
  intros i c0 c' H0. rewrite list_lookup_imap.
  destruct (l !! i) as [c|] eqn:Hi; [intros [= <-]|discriminate].
  destruct (Hl i c0 c H0 Hi) as [Hk Hc], (Hf i c) as [Hk' Hc'].
  split; [congruence|]. intros Hn. rewrite Hc', Hc; congruence.
Qed.

Lemma written_fmap (f : ChildNode -> ChildNode) (l0 l : list ChildNode) :
  (forall c, written c (f c)) ->
  Forall2 written l0 l -> Forall2 written l0 (f <$> l).
Proof.
  intros Hf. rewrite <- imap_const. apply written_imap. intros i. exact Hf.
Qed.

Ltac solve_written :=
  intros;
  unfold written, grab, snapBack, restoreCursor, child_set_style,
    child_set_clickPrevented, assign, assign_transition;
  cbn; repeat (case_match; cbn); split; congruence.

Ltac solve_children :=
  solve
    [ repeat first
        [ assumption
        | apply written_fmap; [solve_written|]
        | apply written_imap; [solve_written|] ] ].

Lemma step_tracks (el0 : HTMLElement) (w : World) (e : Event) :
  (forall r, e <> Host r) ->
  tracks el0 w -> tracks el0 (step w e).
Proof.
  intros Hne (Hsnap & el & Href & Hch).
  destruct (step_static w e) as (Hs & _). split; [congruence|].
  destruct e; try (now exfalso; eapply Hne).
  all: handlers; simplify_eq; cbn in *; simplify_eq; cbn.
  all: first
    [ discriminate
    | now (exists el)
    | solve_children
    | eexists; split; [reflexivity|]; cbn; solve_children ].
Qed.

Lemma hostFree_not_Host (e : Event) : hostFree e -> forall r, e <> Host r.
Proof. destruct e; cbn; easy. Qed.

Lemma step_keeps_listening (w : World) (e : Event) :
  hostFree e -> listening (step w e) = listening w.
Proof.
  destruct e; cbn; try easy; handlers; cbn in *; simplify_eq; congruence.
Qed.

Lemma run_tracks (el0 : HTMLElement) (es : list Event) (w : World) :
  Forall hostFree es ->
  tracks el0 w ->
  tracks el0 (run w es) /\ listening (run w es) = listening w.
Proof.
  intros Hes. revert w. induction Hes as [|e es He _ IH]; intros w Hw; [easy|].
  rewrite run_cons.
  destruct (IH (step w e)) as [Ht Hl].
  { apply step_tracks; [now apply hostFree_not_Host | exact Hw]. }
  split; [exact Ht|]. now rewrite Hl, step_keeps_listening.
Qed.

Lemma mount_tracks (el0 : HTMLElement) :
  isMounted opts = true ->
  tracks el0 (mount (Some el0)) /\ listening (mount (Some el0)) = true.
Proof.
  intros Hm. unfold mount, useEffect, useLayoutEffect, tracks.
  rewrite Hm. cbn. repeat split.
  exists el0. split; [reflexivity|].
  apply Forall2_same_length_lookup. split; [reflexivity|].
  intros i c c' Hc Hc'. assert (c = c') as -> by congruence.
  apply written_refl.
Qed.

(** *** Cursors after pointer-up *)

Lemma afterMouseUp_cursor (w : World) (el0 : HTMLElement) (x y : number)
    (i : nat) (c0 c : ChildNode) :
  snapshot (vars w) = Some (capture el0) ->
  childNodes el0 !! i = Some c0 ->
  written c0 c ->
  cursor (style (afterMouseUp w x y i c))
  = if isHTMLElement c0 then cursor (computed c0) else cursor (style c0).
Proof.
  intros Hsnap Hi [Hk Hc]. unfold afterMouseUp. rewrite Hsnap.
  assert (Hcur : cursor (style (restoreCursor (Some (capture el0)) i
                                  (child_set_clickPrevented
                                     (isDraggingConfirmed (internalState w) x y)
                                     c)))
                 = if isHTMLElement c0 then cursor (computed c0)
                   else cursor (style c0)).
  { unfold restoreCursor. cbn. rewrite Hk, list_lookup_fmap, Hi.
    destruct (isHTMLElement c0); cbn; [reflexivity | now apply Hc]. }
  now destruct (_ && _).
Qed.

(** C7 (amended): after any pointer-up of a mounted controller whose
    container the host has left in place since the mount, the inline
    cursor of the container is the cursor captured at mount, and so is
    the inline cursor of every child that is an HTMLElement, whether or
    not the drag is confirmed; a child node that is not an HTMLElement is
    never written and keeps the inline cursor it had at mount. *)
Theorem pointer_up_restores_cursors (el0 : HTMLElement) (es : list Event)
    (x y : number) :
  isMounted opts = true ->
  Forall hostFree es ->
  let w := run (mount (Some el0)) (es ++ [MouseUp x y]) in
  exists el,
    ref_current w = Some el
    /\ cursor (el_style el) = cursor (el_computed el0)
    /\ forall i child0,
         childNodes el0 !! i = Some child0 ->
         exists child,
           childNodes el !! i = Some child
           /\ cursor (style child)
              = if isHTMLElement child0 then cursor (computed child0)
                else cursor (style child0).
Proof.
  intros Hm Hes w. subst w. rewrite run_app.
  destruct (mount_tracks el0 Hm) as [Ht0 Hl0].
  destruct (run_tracks el0 es _ Hes Ht0) as [(Hsnap & el1 & Href & Hch) Hl].
  set (w1 := run (mount (Some el0)) es) in *.
  cbn. rewrite Hl, Hl0.
  destruct (onMouseUp_ref w1 el1 x y Href) as (el & Hel & Hkids & Hst & _).
  exists el. split; [exact Hel|]. split.
  - rewrite Hst, Hsnap. reflexivity.
  - intros i c0 Hi.
    destruct (Forall2_lookup_l _ _ _ _ _ Hch Hi) as (c1 & Hi1 & Hw).
    exists (afterMouseUp w1 x y i c1).
    split; [now rewrite Hkids, list_lookup_imap, Hi1|].
    now apply (afterMouseUp_cursor w1 el0).
Qed.

(** *** The snap-back timeout *)

Lemma onMouseUp_schedules_recover (w : World) (el : HTMLElement)
    (x y : number) :
  ref_current w = Some el ->
  isDraggingConfirmed (internalState w) x y = true ->
  applyRubberBandEffect opts = true ->
  let idR := S (S (nextTimer w)) in
  rubberBandAnimationTimer (vars (onMouseUp x y w)) = Some idR
  /\ timers (onMouseUp x y w) !! idR = Some RecoverChildStyle.
Proof.
  intros Href Hc Hr. unfold onMouseUp, callbackMomentum.
  rewrite Href, Hc. cbn. rewrite Hr. cbn.
  split; [reflexivity | apply lookup_insert_eq].
Qed.

Lemma recover_restores (el0 : HTMLElement) (idR : nat) (w : World) :
  tracks el0 w ->
  timers w !! idR = Some RecoverChildStyle ->
  exists el,
    ref_current (fire idR w) = Some el
    /\ forall i child0,
         childNodes el0 !! i = Some child0 ->
         isHTMLElement child0 = true ->
         exists child,
           childNodes el !! i = Some child
           /\ transform (style child) = noneAsEmpty (transform (computed child0))
           /\ transition (style child)
              = noneAsEmpty (transition (computed child0)).
Proof.
  intros (Hsnap & el & Href & Hch) HR. unfold fire, recoverChildStyle.
  rewrite HR. cbn. rewrite Href, Hsnap.
  eexists. split; [reflexivity|]. cbn.
  intros i c0 Hi Hhtml.
  destruct (Forall2_lookup_l _ _ _ _ _ Hch Hi) as (c & Hc & Hk & _).
  rewrite list_lookup_imap, Hc. cbn. eexists. split; [reflexivity|].
  rewrite Hk, Hhtml, !list_lookup_fmap, Hi. cbn. split; reflexivity.
Qed.

(** X17: on a container that the mount found and the host has left in
    place since, whatever else has happened, a confirmed pointer-up with
    the rubber band enabled schedules the snap-back timeout, and the
    firing of a snap-back timeout leaves every child that is an
    HTMLElement with the transform and transition captured at mount as
    inline values (a computed "none" captured as the empty string). *)
Theorem snap_back_restores_html_children (el0 : HTMLElement)
    (es : list Event) :
  isMounted opts = true ->
  Forall hostFree es ->
  let w := run (mount (Some el0)) es in
  (forall x y,
     applyRubberBandEffect opts = true ->
     isDraggingConfirmed (internalState w) x y = true ->
     let w' := step w (MouseUp x y) in
     exists idR,
       rubberBandAnimationTimer (vars w') = Some idR
       /\ timers w' !! idR = Some RecoverChildStyle)
  /\ (forall idR,
        timers w !! idR = Some RecoverChildStyle ->
        exists el,
          ref_current (fire idR w) = Some el
          /\ forall i child0,
               childNodes el0 !! i = Some child0 ->
               isHTMLElement child0 = true ->
               exists child,
                 childNodes el !! i = Some child
                 /\ transform (style child)
                    = noneAsEmpty (transform (computed child0))
                 /\ transition (style child)
                    = noneAsEmpty (transition (computed child0))).
Proof.
  intros Hm Hes w.
  destruct (mount_tracks el0 Hm) as [Ht0 Hl0].
  destruct (run_tracks el0 es _ Hes Ht0) as [Ht Hl]. fold w in Ht, Hl.
  split.
  - intros x y Hrb Hc w'. subst w'. cbn. rewrite Hl, Hl0.
    destruct Ht as (_ & el & Href & _).
    destruct (onMouseUp_schedules_recover w el x y Href Hc Hrb) as [HR HtR].
    eauto.
  - intros idR HR. exact (recover_restores el0 idR w Ht HR).
Qed.

(** ** Further properties *)

(** *** Dragging *)

Lemma timing_cancels (a : number) : a / timing * timing == a.
Proof. unfold timing. field. Qed.

Lemma onMouseMove_scrolls (w : World) (el : HTMLElement) (x y : number) :
  isMouseDown (internalState w) = true ->
  ref_current w = Some el ->
  let s := internalState w in
  let w' := onMouseMove x y w in
  exists el',
    ref_current w' = Some el'
    /\ isMouseDown (internalState w') = true
    /\ lastMouseX (internalState w') = x
    /\ lastMouseY (internalState w') = y
    /\ scrollLeft el' == scrollLeft el + (lastMouseX s - x)
    /\ scrollTop el' == scrollTop el + (lastMouseY s - y).
Proof.
  intros Hd Href s w'. subst w' s. unfold onMouseMove. rewrite Hd, Href.
  cbn. destruct (_ && _); unfold rubberBandCallback, runScroll; cbn;
    [destruct (displacement _ _ _ _); cbn|];
    eexists; (split; [reflexivity|]); cbn;
    (do 3 (split; [reflexivity|])); split; now rewrite timing_cancels.
Qed.

Lemma last_cons_default {A : Type} (d m : A) (ms : list A) :
  default d (last (m :: ms)) = default m (last ms).
Proof. rewrite last_cons. now destruct (last ms). Qed.

(** X1: while the pointer is pressed and the container stays in place,
    the scroll offsets follow the pointer one to one: after any sequence
    of pointer moves each offset has changed by the distance between the
    position the drag started from and the position of the last move,
    whatever the path in between and whether or not the rubber band is
    enabled. *)
Theorem drag_follows_pointer (w : World) (el : HTMLElement)
    (moves : list (number * number)) :
  listening w = true ->
  isMouseDown (internalState w) = true ->
  ref_current w = Some el ->
  let s := internalState w in
  let w' := run w ((λ p, MouseMove p.1 p.2) <$> moves) in
  let p := default (lastMouseX s, lastMouseY s) (last moves) in
  exists el',
    ref_current w' = Some el'
    /\ lastMouseX (internalState w') = p.1
    /\ lastMouseY (internalState w') = p.2
    /\ scrollLeft el' == scrollLeft el + (lastMouseX s - p.1)
    /\ scrollTop el' == scrollTop el + (lastMouseY s - p.2).
Proof.
  revert w el. induction moves as [|[x y] moves IH]; intros w el Hl Hd Href.
  - exists el. cbn. repeat split; try assumption; ring.
  - cbn zeta. rewrite fmap_cons, run_cons, last_cons_default. cbn [fst snd].
    destruct (onMouseMove_scrolls w el x y Hd Href)
      as (el1 & Href1 & Hd1 & Hx1 & Hy1 & Hsx & Hsy).
    assert (Hstep : step w (MouseMove x y) = onMouseMove x y w)
      by (cbn; now rewrite Hl).
    rewrite Hstep.
    assert (Hl1 : listening (onMouseMove x y w) = true)
      by (rewrite <- Hstep, step_keeps_listening; [exact Hl | exact I]).
    destruct (IH _ el1 Hl1 Hd1 Href1) as (el' & Href' & Hx' & Hy' & Hsx' & Hsy').
    rewrite Hx1, Hy1 in Hx', Hy', Hsx', Hsy'.
    exists el'. split; [exact Href'|].
    split; [exact Hx'|]. split; [exact Hy'|].
    split; [rewrite Hsx', Hsx | rewrite Hsy', Hsy]; ring.
Qed.

(** *** Presses *)

Lemma step_unpressed (w : World) (e : Event) :
  unpressed e ->
  isMouseDown (internalState w) = false ->
  isMouseDown (internalState (step w e)) = false.
Proof.
  destruct e; cbn; intros He Hd; handlers; cbn in *; congruence.
Qed.

Lemma run_unpressed (w : World) (es : list Event) :
  Forall unpressed es ->
  isMouseDown (internalState w) = false ->
  isMouseDown (internalState (run w es)) = false.
Proof.
  intros Hes. revert w. induction Hes as [|e es He _ IH]; intros w Hd; [easy|].
  rewrite run_cons. now apply IH, step_unpressed.
Qed.

Lemma move_unpressed (w : World) (x y : number) :
  isMouseDown (internalState w) = false -> step w (MouseMove x y) = w.
Proof.
  intros Hd. cbn. unfold onMouseMove. rewrite Hd. now destruct (listening w).
Qed.

(** X2: a press counts only if its [buttons] code is exactly the code
    of the active button (1, 4 or 2 for left, middle, right), and pointer
    moves do something only after such a press: from the mount on, and
    again after every pointer-up that finds the container, every pointer
    move is ignored as long as no press with the active button comes,
    whatever else happens in between. *)
Theorem moves_need_a_press (es : list Event) :
  Forall unpressed es ->
  (forall buttons,
     getIsMousePressActive buttons = true <->
     buttons = match activeMouseButton opts with
               | Left => 1 | Middle => 4 | Right => 2
               end%Z)
  /\ (forall r x y,
        let w := run (mount r) es in step w (MouseMove x y) = w)
  /\ (forall w0 el x0 y0 x y,
        listening w0 = true ->
        ref_current w0 = Some el ->
        let w := run w0 (MouseUp x0 y0 :: es) in step w (MouseMove x y) = w).
Proof.
  intros Hes. split; [|split].
  - intros buttons. unfold getIsMousePressActive.
    destruct (activeMouseButton opts); apply Z.eqb_eq.
  - intros r x y w. apply move_unpressed, run_unpressed; [exact Hes|].
    unfold mount, useEffect, useLayoutEffect.
    repeat (case_match; cbn); reflexivity.
  - intros w0 el x0 y0 x y Hl Href w. subst w. rewrite run_cons.
    apply move_unpressed, run_unpressed; [exact Hes|].
    cbn. rewrite Hl. unfold onMouseUp, callbackMomentum. rewrite Href. cbn.
    repeat (case_match; cbn); reflexivity.
Qed.

(** *** What is read at mount *)

(** X3: the layout effect is the only reader of the container's
    overflow style and of the children's computed styles: after any
    sequence of events, replacements of the container by the host
    included, the scrollability flags and the captured style arrays are
    those of the container the mount found, and they are unset if the
    mount found none or the hook is not mounted. *)
Theorem layout_is_read_once (r : option HTMLElement) (es : list Event) :
  let seen := if isMounted opts then r else None in
  let w := run (mount r) es in
  snapshot (vars w) = capture <$> seen
  /\ isScrollableAlongX (vars w)
     = from_option (λ el, String.eqb (overflowX (el_computed el)) "scroll")
         false seen
  /\ isScrollableAlongY (vars w)
     = from_option (λ el, String.eqb (overflowY (el_computed el)) "scroll")
         false seen.
Proof.
  intros seen w. destruct (run_static (mount r) es) as (Hs & Hx & Hy & _).
  subst w. rewrite Hs, Hx, Hy. subst seen.
  unfold mount, useEffect, useLayoutEffect.
  destruct (isMounted opts), r; cbn; repeat split.
Qed.

(** *** A hook that is not mounted, or not any more *)

Lemma step_idle (w : World) (e : Event) :
  (forall r, e <> Host r) ->
  listening w = false -> timers w = ∅ -> vars w = initialClosure ->
  listening (step w e) = false
  /\ timers (step w e) = ∅
  /\ vars (step w e) = initialClosure
  /\ ref_current (step w e) = ref_current w
  /\ scrollSpeedX (internalState (step w e)) = scrollSpeedX (internalState w)
  /\ scrollSpeedY (internalState (step w e)) = scrollSpeedY (internalState w).
Proof.
  intros Hne Hl Ht Hv. destruct e; cbn; rewrite ?Hl.
  - unfold onMouseDown. repeat (case_match; cbn); repeat split; assumption.
  - repeat split; assumption.
  - repeat split; assumption.
  - repeat split; assumption.
  - unfold fire. rewrite Ht, lookup_empty. repeat split; assumption.
  - now exfalso; eapply Hne.
  - unfold cleanup. rewrite !clearTimer_vars. cbn [vars set_listening].
    rewrite Hv. cbn. repeat split; auto.
Qed.

(** X4: with [isMounted] false the hook does nothing: whatever events
    arrive, as long as the host leaves the container alone, the
    container is exactly as it was given (never scrolled, no style
    written), no timer is ever started, the closure variables keep their
    initial values and both speeds stay 0. *)
Theorem not_mounted_is_inert (r : option HTMLElement) (es : list Event) :
  isMounted opts = false ->
  Forall (λ e, forall r', e <> Host r') es ->
  let w := run (mount r) es in
  ref_current w = r
  /\ timers w = ∅
  /\ vars w = initialClosure
  /\ listening w = false
  /\ scrollSpeedX (internalState w) = 0
  /\ scrollSpeedY (internalState w) = 0.
Proof.
  intros Hm Hes w. subst w.
  assert (Hmount : mount r = initialWorld r)
    by (unfold mount, useEffect, useLayoutEffect; now rewrite Hm).
  rewrite Hmount. clear Hmount.
  assert (Hgen : forall w,
            listening w = false -> timers w = ∅ -> vars w = initialClosure ->
            ref_current (run w es) = ref_current w
            /\ timers (run w es) = ∅
            /\ vars (run w es) = initialClosure
            /\ listening (run w es) = false
            /\ scrollSpeedX (internalState (run w es))
               = scrollSpeedX (internalState w)
            /\ scrollSpeedY (internalState (run w es))
               = scrollSpeedY (internalState w)).
  { induction Hes as [|e es He _ IH]; intros w Hl Ht Hv;
      [repeat split; assumption|].
    rewrite run_cons.
    destruct (step_idle w e He Hl Ht Hv) as (Hl' & Ht' & Hv' & Hr' & Hx' & Hy').
    destruct (IH (step w e) Hl' Ht' Hv') as (Hr & Ht2 & Hv2 & Hl2 & Hx & Hy).
    repeat split; congruence. }
  now apply (Hgen (initialWorld r)).
Qed.

Lemma step_stays_deaf (w : World) (e : Event) :
  listening w = false -> listening (step w e) = false.
Proof.
  intros Hl. destruct (listening (step w e)) eqn:H; [|reflexivity].
  apply step_listening in H as [H _]. congruence.
Qed.

Lemma clearTimer_listening (h : option nat) (w : World) :
  listening (clearTimer h w) = listening w.
Proof. now destruct h. Qed.

Lemma clearTimer_shrinks (h : option nat) (w : World) (id : nat)
    (cb : TimerCallback) :
  timers (clearTimer h w) !! id = Some cb -> timers w !! id = Some cb.
Proof. destruct h; [apply lookup_delete_Some_inv | easy]. Qed.

(** No event but a pointer-up that is listened to adds a timer. *)
Lemma step_shrinks (w : World) (e : Event) (id : nat) (cb : TimerCallback) :
  listening w = false \/ (forall x y, e <> MouseUp x y) ->
  timers (step w e) !! id = Some cb -> timers w !! id = Some cb.
Proof.
  intros Hor. destruct e; cbn.
  - unfold onMouseDown. repeat (case_match; cbn); easy.
  - unfold onMouseMove, rubberBandCallback, runScroll.
    repeat (case_match; cbn); easy.
  - destruct Hor as [-> | Hne]; [easy | now exfalso; eapply Hne].
  - unfold handleResize. repeat (case_match; cbn); easy.
  - apply fire_shrinks.
  - easy.
  - unfold cleanup. intros H. now do 3 apply clearTimer_shrinks in H.
Qed.

Lemma run_stays_deaf (w : World) (es : list Event) :
  listening w = false -> listening (run w es) = false.
Proof.
  revert w. induction es as [|e es IH]; intros w Hl; [easy|].
  rewrite run_cons. now apply IH, step_stays_deaf.
Qed.

Lemma run_shrinks_deaf (w : World) (es : list Event) (id : nat)
    (cb : TimerCallback) :
  listening w = false ->
  timers (run w es) !! id = Some cb -> timers w !! id = Some cb.
Proof.
  revert w. induction es as [|e es IH]; intros w Hl; [easy|].
  rewrite run_cons. intros H. apply (step_shrinks w e); [now left|].
  now apply IH; [apply step_stays_deaf|].
Qed.

(** X5: the clean-up of the effect is final for the window listeners
    and for the timers its three handles name: whatever happens after
    it, pointer moves, pointer-ups and resizes change nothing, and the
    timers that [keepMovingX], [keepMovingY] and
    [rubberBandAnimationTimer] named are gone and never fire again. *)
Theorem unmount_is_final (w : World) (es : list Event) :
  let w' := run (step w Unmount) es in
  listening w' = false
  /\ (forall e, windowEvent e -> step w' e = w')
  /\ (forall id,
        keepMovingX (vars w) = Some id
        \/ keepMovingY (vars w) = Some id
        \/ rubberBandAnimationTimer (vars w) = Some id ->
        timers w' !! id = None /\ fire id w' = w').
Proof.
  intros w'.
  assert (Hl0 : listening (step w Unmount) = false).
  { cbn. unfold cleanup. now rewrite !clearTimer_listening. }
  assert (Hl : listening w' = false) by now apply run_stays_deaf.
  split; [exact Hl|]. split.
  - intros e He. destruct e; cbn in He |- *; try easy; now rewrite Hl.
  - intros id Hid.
    assert (Hgone : timers (step w Unmount) !! id = None).
    { cbn. unfold cleanup. rewrite !clearTimer_vars.
      cbn [vars set_listening]. destruct Hid as [Hk|[Hk|Hk]].
      - do 2 apply clearTimer_keeps_None. rewrite Hk. apply clearTimer_clears.
      - apply clearTimer_keeps_None. rewrite Hk. apply clearTimer_clears.
      - rewrite Hk. apply clearTimer_clears. }
    assert (Hnone : timers w' !! id = None).
    { destruct (timers w' !! id) as [cb|] eqn:Hcb; [|reflexivity].
      apply (run_shrinks_deaf _ es id cb Hl0) in Hcb. congruence. }
    split; [exact Hnone | now apply fire_idle].
Qed.

(** *** What the handlers never write *)

Lemma fmap_fmap_keeps {A B : Type} (g : A -> B) (f : A -> A) (l : list A) :
  (forall a, g (f a) = g a) -> g <$> (f <$> l) = g <$> l.
Proof.
  intros H. rewrite <- list_fmap_compose. apply list_fmap_ext.
  intros i a _. apply H.
Qed.

Lemma fmap_imap_keeps {A B : Type} (g : A -> B) (f : nat -> A -> A)
    (l : list A) :
  (forall i a, g (f i a) = g a) -> g <$> imap f l = g <$> l.
Proof.
  intros H. rewrite fmap_imap, <- imap_const. apply imap_ext.
  intros i a _. apply H.
Qed.

Ltac solve_kid :=
  intros;
  unfold grab, snapBack, restoreCursor, child_set_style,
    child_set_clickPrevented, assign, assign_transition;
  cbn; repeat (case_match; cbn); reflexivity.

Ltac solve_kids :=
  cbn in *; simplify_eq;
  repeat match goal with
         | H : ref_current _ = _ |- _ => rewrite H; clear H
         end;
  cbn;
  first
    [ reflexivity
    | f_equal;
      repeat first
        [ rewrite fmap_imap_keeps by solve_kid
        | rewrite fmap_fmap_keeps by solve_kid ];
      reflexivity ].

Lemma step_suppressors (w : World) (e : Event) :
  (forall x y, e <> MouseUp x y) ->
  (forall r, e <> Host r) ->
  suppressors (step w e) = suppressors w.
Proof.
  intros Hup Hhost. unfold suppressors.
  destruct e;
    try solve [exfalso; eapply Hup; reflexivity
              |exfalso; eapply Hhost; reflexivity];
    handlers; solve_kids.
Qed.

(** X6: the click suppressor of a child is registered and removed by
    pointer-up alone: presses, pointer moves, resizes, momentum ticks,
    the snap-back timeout and also the clean-up of the effect leave it
    on every child exactly as the last pointer-up left it. *)
Theorem only_pointer_up_changes_click_suppression (w : World)
    (es : list Event) :
  Forall (λ e, (forall x y, e <> MouseUp x y) /\ forall r, e <> Host r) es ->
  suppressors (run w es) = suppressors w.
Proof.
  intros Hes. revert w.
  induction Hes as [|e es [Hup Hhost] _ IH]; intros w; [reflexivity|].
  rewrite run_cons, IH. now apply step_suppressors.
Qed.

Lemma step_noRecover (w : World) (e : Event) :
  applyRubberBandEffect opts = false ->
  (forall id, timers w !! id <> Some RecoverChildStyle) ->
  forall id, timers (step w e) !! id <> Some RecoverChildStyle.
Proof.
  intros Hrb Hno id H.
  assert (Hold : (forall x y, e <> MouseUp x y) -> False).
  { intros Hne. apply (Hno id), (step_shrinks w e); [now right | exact H]. }
  destruct e; try (apply Hold; discriminate).
  cbn in H. destruct (listening w); [|now apply (Hno id)].
  unfold onMouseUp, callbackMomentum in H. rewrite Hrb in H.
  destruct (ref_current w); [|now apply (Hno id)].
  destruct (isDraggingConfirmed _ _ _); cbn in H; [|now apply (Hno id)].
  apply lookup_insert_Some in H as [[_ H]|[_ H]]; [discriminate|].
  apply lookup_insert_Some in H as [[_ H]|[_ H]]; [discriminate|].
  now apply (Hno id).
Qed.

Lemma step_transforms (w : World) (e : Event) :
  applyRubberBandEffect opts = false ->
  (forall r, e <> Host r) ->
  (forall id, timers w !! id <> Some RecoverChildStyle) ->
  transforms (step w e) = transforms w.
Proof.
  intros Hrb Hhost Hno. unfold transforms.
  destruct e; try solve [exfalso; eapply Hhost; reflexivity].
  all: unfold step, fire, onMouseDown, onMouseMove, onMouseUp, handleResize,
         cleanup, callbackMomentum, momentumX, momentumY, runScroll,
         clearTimer;
       rewrite ?Hrb, ?andb_false_r; cbn.
  all: try (destruct (timers w !! id) as [[]|] eqn:Hid;
            [| |now exfalso; apply (Hno id)|]).
  all: repeat (case_match; cbn).
  all: try match goal with
           | H : _ && false = true |- _ =>
               rewrite andb_false_r in H; discriminate
           end.
  all: solve_kids.
Qed.

(** X7: with the rubber band disabled the hook never touches the
    transform or the transition of a child: after any sequence of events
    that leaves the container to the hook, every child has the inline
    transform and transition it was given, and no snap-back timeout is
    ever pending. *)
Theorem no_rubber_band_no_transform (r : option HTMLElement)
    (es : list Event) :
  applyRubberBandEffect opts = false ->
  Forall (λ e, forall r', e <> Host r') es ->
  let w := run (mount r) es in
  transforms w = transforms (initialWorld r)
  /\ forall id, timers w !! id <> Some RecoverChildStyle.
Proof.
  intros Hrb Hes w. subst w.
  assert (Hgen : forall w,
            (forall id, timers w !! id <> Some RecoverChildStyle) ->
            transforms (run w es) = transforms w
            /\ forall id, timers (run w es) !! id <> Some RecoverChildStyle).
  { induction Hes as [|e es He _ IH]; intros w Hno; [easy|].
    rewrite run_cons.
    destruct (IH (step w e) (step_noRecover w e Hrb Hno)) as [Ht Hno'].
    split; [|exact Hno']. rewrite Ht. now apply step_transforms. }
  destruct (Hgen (mount r)) as [Ht Hno].
  { intros id. unfold mount, useEffect, useLayoutEffect.
    repeat (case_match; cbn); now rewrite lookup_empty. }
  split; [|exact Hno]. rewrite Ht.
  unfold transforms, mount, useEffect, useLayoutEffect.
  repeat (case_match; cbn); reflexivity.
Qed.

(** *** What a momentum tick scrolls *)

Lemma clearTimer_ref (h : option nat) (w : World) :
  ref_current (clearTimer h w) = ref_current w.
Proof. now destruct h. Qed.

Lemma decayedX_ref (w : World) (el : HTMLElement) :
  ref_current w = Some el ->
  ref_current (decayedX w)
  = Some (set_scroll
            (scrollLeft el
             + scrollSpeedX (internalState w) * decayRate opts * timing)
            (scrollTop el + scrollSpeedY (internalState w) * timing) el).
Proof. intros Href. unfold decayedX, runScroll. cbn. now rewrite Href. Qed.

Lemma decayedY_ref (w : World) (el : HTMLElement) :
  ref_current w = Some el ->
  ref_current (decayedY w)
  = Some (set_scroll
            (scrollLeft el + scrollSpeedX (internalState w) * timing)
            (scrollTop el
             + scrollSpeedY (internalState w) * decayRate opts * timing) el).
Proof. intros Href. unfold decayedY, runScroll. cbn. now rewrite Href. Qed.

Lemma momentumX_ref (w : World) (el : HTMLElement) :
  ref_current w = Some el ->
  ref_current (momentumX w) = ref_current (decayedX w).
Proof.
  intros Href. destruct (momentumX_cases w el Href) as [[_ ->]|[_ ->]];
    [|reflexivity].
  now rewrite clearTimer_ref.
Qed.

Lemma momentumY_ref (w : World) (el : HTMLElement) :
  ref_current w = Some el ->
  ref_current (momentumY w) = ref_current (decayedY w).
Proof.
  intros Href. destruct (momentumY_cases w el Href) as [[_ ->]|[_ ->]];
    [|reflexivity].
  now rewrite clearTimer_ref.
Qed.

(** X8: a momentum tick scrolls both axes, whether it goes on or
    stops: the tick of the X interval moves the horizontal offset by the
    decayed X speed times [timing] and the vertical offset by the
    current Y speed times [timing], and the tick of the Y interval does
    the same with the axes exchanged.  So while both loops run, a tick of
    each moves the horizontal offset by twice the decayed X speed times
    [timing]. *)
Theorem momentum_tick_scrolls_both_axes (w : World) (el : HTMLElement) :
  ref_current w = Some el ->
  let s := internalState w in
  let r := decayRate opts in
  (forall id,
     timers w !! id = Some MomentumX ->
     exists el',
       ref_current (fire id w) = Some el'
       /\ scrollLeft el' = scrollLeft el + scrollSpeedX s * r * timing
       /\ scrollTop el' = scrollTop el + scrollSpeedY s * timing)
  /\ (forall id,
        timers w !! id = Some MomentumY ->
        exists el',
          ref_current (fire id w) = Some el'
          /\ scrollLeft el' = scrollLeft el + scrollSpeedX s * timing
          /\ scrollTop el' = scrollTop el + scrollSpeedY s * r * timing)
  /\ (forall idX idY,
        timers w !! idX = Some MomentumX ->
        timers w !! idY = Some MomentumY ->
        ~ stopsX w el ->
        exists el',
          ref_current (fire idY (fire idX w)) = Some el'
          /\ scrollLeft el'
             == scrollLeft el + 2 * (scrollSpeedX s * r * timing)).
Proof.
  intros Href s r. split; [|split].
  - intros id Hid. rewrite (fire_momentumX _ _ Hid).
    rewrite (momentumX_ref w el Href), (decayedX_ref w el Href).
    eexists. split; [reflexivity|]. split; reflexivity.
  - intros id Hid. rewrite (fire_momentumY _ _ Hid).
    rewrite (momentumY_ref w el Href), (decayedY_ref w el Href).
    eexists. split; [reflexivity|]. split; reflexivity.
  - intros idX idY HX HY Hgo. rewrite (fire_momentumX _ _ HX).
    destruct (momentumX_cases w el Href) as [[Hs _]|[_ ->]]; [contradiction|].
    pose proof (decayedX_ref w el Href) as Href1.
    assert (HY1 : timers (decayedX w) !! idY = Some MomentumY).
    { unfold decayedX, runScroll. cbn. now rewrite Href. }
    rewrite (fire_momentumY _ _ HY1), (momentumY_ref _ _ Href1),
      (decayedY_ref _ _ Href1).
    eexists. split; [reflexivity|].
    unfold decayedX, runScroll. cbn. rewrite Href. cbn.
    subst s r. ring.
Qed.

(** *** The rubber-band formula *)

Lemma Math_sign_opp (d : number) : Math_sign (- d) = - Math_sign d.
Proof. destruct d as [[|p|p] q]; reflexivity. Qed.

Lemma Math_abs_opp (d : number) : Math_abs (- d) = Math_abs d.
Proof. destruct d as [[|p|p] q]; reflexivity. Qed.

Lemma Math_sign_pos (d : number) : 0 < d -> Math_sign d = 1.
Proof.
  destruct d as [[|p|p] q]; unfold Qlt; cbn; intros H;
    [lia | reflexivity | lia].
Qed.

Lemma Math_sign_zero (d : number) : d == 0 -> Math_sign d = 0.
Proof.
  destruct d as [[|p|p] q]; unfold Qeq; cbn; intros H;
    [reflexivity | lia | lia].
Qed.

Lemma rubberBand_opp (size d : number) :
  rubberBand Math_log10 size (- d) == - rubberBand Math_log10 size d.
Proof. unfold rubberBand. rewrite Math_sign_opp, Math_abs_opp. ring. Qed.

Lemma rubberBand_zero (size d : number) :
  d == 0 -> rubberBand Math_log10 size d == 0.
Proof.
  intros Hd. unfold rubberBand. rewrite (Math_sign_zero d Hd). ring.
Qed.

Lemma rubberBand_pos (size d : number) :
  (forall x, 1 < x -> 0 < Math_log10 x) ->
  0 < size -> 0 < d -> 0 < rubberBand Math_log10 size d.
Proof.
  intros Hlog Hsize Hd. unfold rubberBand. rewrite (Math_sign_pos d Hd).
  unfold Math_abs.
  assert (Ha : Qabs d == d) by (apply Qabs_pos; lra).
  assert (Harg : 1 < 1 + (5 # 10) * Qabs d / size).
  { assert (0 < (5 # 10) * Qabs d / size); [|lra].
    apply Qlt_shift_div_l; [exact Hsize|]. rewrite Ha. lra. }
  specialize (Hlog _ Harg).
  repeat apply Qmult_lt_0_compat; lra.
Qed.

(** X9: on a container whose client size is positive along every
    axis it scrolls along (at size 0 the source divides by zero), the
    rubber-band displacement is an odd function of the pointer's distance
    from the press position, whatever [Math.log10] returns: mirroring
    the distance mirrors the displacement, and no distance along an axis
    gives no displacement along it.  If moreover [Math.log10] is positive
    above 1, a pointer to the right of (below) the press position
    displaces the children of a container that scrolls along that axis
    to the right (downwards). *)
Theorem rubber_band_is_odd (w : World) (el : HTMLElement) (dx dy : number) :
  (isScrollableAlongX (vars w) = true -> 0 < clientWidth el) ->
  (isScrollableAlongY (vars w) = true -> 0 < clientHeight el) ->
  let d := displacement w el dx dy in
  let d' := displacement w el (- dx) (- dy) in
  (d'.1 == - d.1 /\ d'.2 == - d.2)
  /\ (dx == 0 -> d.1 == 0)
  /\ (dy == 0 -> d.2 == 0)
  /\ ((forall x, 1 < x -> 0 < Math_log10 x) ->
      (isScrollableAlongX (vars w) = true -> 0 < dx -> 0 < d.1)
      /\ (isScrollableAlongY (vars w) = true -> 0 < dy -> 0 < d.2)).
Proof.
  intros Hwidth Hheight. unfold displacement.
  destruct (isScrollableAlongX (vars w)), (isScrollableAlongY (vars w));
    cbn [andb fst snd].
  all: split; [split; first [apply rubberBand_opp | reflexivity]|].
  all: split; [first [apply rubberBand_zero | reflexivity]|].
  all: split; [first [apply rubberBand_zero | reflexivity]|].
  all: intros Hlog; split; intros Hk Hd;
    first [discriminate | apply rubberBand_pos; auto].
Qed.

(** *** How the writes to the children compose *)

(** X10: the rubber band does not accumulate: what
    [rubberBandCallback] writes depends on the pointer position of the
    call alone, so a second call overwrites the first without a trace;
    and [recoverChildStyle] after a rubber-band write gives what it gives
    without that write, as long as the captured arrays have an entry for
    every child of the container. *)
Theorem rubber_band_last_write_wins (w : World) (x1 y1 x2 y2 : number) :
  rubberBandCallback x2 y2 (rubberBandCallback x1 y1 w)
  = rubberBandCallback x2 y2 w
  /\ forall el snap,
       ref_current w = Some el ->
       snapshot (vars w) = Some snap ->
       (length (childNodes el)
        <= length (transformStyleOfChildElements snap))%nat ->
       (length (childNodes el)
        <= length (transitionStyleOfChildElements snap))%nat ->
       recoverChildStyle (rubberBandCallback x1 y1 w) = recoverChildStyle w.
Proof.
  split.
  - unfold rubberBandCallback.
    destruct (ref_current w) as [el|] eqn:Href; [|now rewrite Href].
    destruct (displacement w el _ _) as [dx1 dy1]. cbn.
    match goal with
    | |- context [displacement ?w' ?el' ?dx ?dy] =>
        change (displacement w' el' dx dy) with (displacement w el dx dy)
    end.
    destruct (displacement w el _ _) as [dx2 dy2].
    unfold set_ref, set_childNodes. cbn. do 3 f_equal.
    apply fmap_fmap_keeps. intros child.
    destruct (isHTMLElement child) eqn:Hk; cbn; rewrite ?Hk; reflexivity.
  - intros el snap Href Hsnap Htf Htr.
    unfold recoverChildStyle, rubberBandCallback. rewrite Href, Hsnap.
    destruct (displacement w el _ _) as [dx1 dy1]. cbn. rewrite Hsnap.
    unfold set_ref, set_childNodes. cbn. do 3 f_equal.
    rewrite imap_fmap. apply imap_ext.
    intros i child Hi. cbn.
    destruct (isHTMLElement child) eqn:Hk; cbn; rewrite Hk; [|reflexivity].
    apply lookup_lt_Some in Hi.
    destruct (lookup_lt_is_Some_2 (transformStyleOfChildElements snap) i)
      as [tf ->]; [lia|].
    destruct (lookup_lt_is_Some_2 (transitionStyleOfChildElements snap) i)
      as [tr ->]; [lia|].
    reflexivity.
Qed.

(** *** Invariants of the reachable worlds *)

(** X11: the two dragging flags are always equal: every handler that
    writes one writes the other to the same value. *)
Theorem dragging_flags_agree (w : World) :
  reachable w ->
  isDraggingX (internalState w) = isDraggingY (internalState w).
Proof.
  induction 1 as [r|w e _ IH].
  - unfold mount, useEffect, useLayoutEffect.
    repeat (case_match; cbn); reflexivity.
  - destruct e; handlers; cbn in *; simplify_eq; cbn;
      first [reflexivity | assumption].
Qed.

Lemma step_nextTimer (w : World) (e : Event) :
  (forall x y, e <> MouseUp x y) -> nextTimer (step w e) = nextTimer w.
Proof.
  intros Hup.
  destruct e; try solve [exfalso; eapply Hup; reflexivity];
    handlers; cbn in *; simplify_eq; reflexivity.
Qed.

(** X12: timers are started by pointer-up alone: no press, pointer
    move, resize, timer tick, change of container or clean-up adds a
    pending timer or uses up a timer handle; they can only remove
    timers. *)
Theorem only_pointer_up_starts_timers (w : World) (es : list Event) :
  Forall (λ e, forall x y, e <> MouseUp x y) es ->
  timers (run w es) ⊆ timers w /\ nextTimer (run w es) = nextTimer w.
Proof.
  intros Hes. revert w.
  induction Hes as [|e es He _ IH]; intros w; [easy|].
  rewrite run_cons. destruct (IH (step w e)) as [Hsub Hnext]. split.
  - etrans; [exact Hsub|]. apply map_subseteq_spec. intros id cb.
    apply step_shrinks. now right.
  - rewrite Hnext. now apply step_nextTimer.
Qed.

(** *** Intervals the hook loses track of *)

Lemma step_rubber_handle (w : World) (e : Event) :
  (forall x y, e <> MouseUp x y) ->
  rubberBandAnimationTimer (vars (step w e))
  = rubberBandAnimationTimer (vars w).
Proof.
  intros Hup.
  destruct e; try solve [exfalso; eapply Hup; reflexivity];
    handlers; cbn in *; simplify_eq; reflexivity.
Qed.

Lemma callbackMomentum_handlesFresh (w : World) :
  handlesFresh w -> handlesFresh (callbackMomentum w).
Proof.
  intros [Hlt Hrb]. unfold callbackMomentum.
  destruct (ref_current w); [|now split]. cbn.
  destruct (applyRubberBandEffect opts); cbn; split.
  - intros i cb H. cbn in H |- *.
    repeat (apply lookup_insert_Some in H as [[<- _]|[_ H]]; [lia|]).
    apply Hlt in H. lia.
  - intros i [= <-]. cbn. split; [lia|]. intros cb.
    rewrite lookup_insert_eq. congruence.
  - intros i cb H. cbn in H |- *.
    repeat (apply lookup_insert_Some in H as [[<- _]|[_ H]]; [lia|]).
    apply Hlt in H. lia.
  - intros i Hi. cbn in Hi |- *. destruct (Hrb i Hi) as [Hi' Hcb].
    split; [lia|].
    intros cb. rewrite !lookup_insert_ne by lia. apply Hcb.
Qed.

Lemma step_handlesFresh (w : World) (e : Event) :
  handlesFresh w -> handlesFresh (step w e).
Proof.
  intros Hf.
  assert (Hother : (forall x y, e <> MouseUp x y) -> handlesFresh (step w e)).
  { intros Hup. destruct Hf as [Hlt Hrb]. split.
    - intros i cb H. rewrite step_nextTimer by exact Hup.
      eapply Hlt, step_shrinks; [now right | exact H].
    - intros i. rewrite step_rubber_handle, step_nextTimer by exact Hup.
      intros Hi. destruct (Hrb i Hi) as [Hi' Hcb]. split; [exact Hi'|].
      intros cb H. eapply Hcb, step_shrinks; [now right | exact H]. }
  destruct e; try (apply Hother; discriminate).
  cbn. destruct (listening w); [|exact Hf]. unfold onMouseUp.
  destruct (ref_current w); [|exact Hf].
  destruct (isDraggingConfirmed _ _ _); [|exact Hf].
  now apply callbackMomentum_handlesFresh.
Qed.

Lemma reachable_handlesFresh (w : World) : reachable w -> handlesFresh w.
Proof.
  induction 1 as [r|w e _ IH]; [|now apply step_handlesFresh].
  unfold mount, useEffect, useLayoutEffect, handlesFresh.
  repeat (case_match; cbn); split; intros i; try discriminate;
    intros cb; now rewrite lookup_empty.
Qed.

Lemma forgotten_same (id : nat) (cb : TimerCallback) (w w' : World) :
  timers w' = timers w ->
  keepMovingX (vars w') = keepMovingX (vars w) ->
  keepMovingY (vars w') = keepMovingY (vars w) ->
  rubberBandAnimationTimer (vars w') = rubberBandAnimationTimer (vars w) ->
  nextTimer w' = nextTimer w ->
  forgotten id cb w -> forgotten id cb w'.
Proof. unfold forgotten. now intros -> -> -> -> ->. Qed.

Lemma forgotten_clearTimer (id : nat) (cb : TimerCallback) (h : option nat)
    (w : World) :
  h <> Some id -> forgotten id cb w -> forgotten id cb (clearTimer h w).
Proof.
  intros Hne Hf. destruct h as [k|]; [|exact Hf].
  destruct Hf as (Hid & Hf). split; [|exact Hf]. cbn.
  rewrite lookup_delete_ne by congruence. exact Hid.
Qed.

Lemma forgotten_callbackMomentum (id : nat) (cb : TimerCallback) (w : World) :
  forgotten id cb w -> forgotten id cb (callbackMomentum w).
Proof.
  intros Hf. unfold callbackMomentum.
  destruct (ref_current w); [|exact Hf].
  destruct Hf as (Hid & Hcb & Hkx & Hky & Hrb & Hlt). unfold forgotten. cbn.
  destruct (applyRubberBandEffect opts); cbn;
    rewrite !lookup_insert_ne by lia;
    (do 2 (split; [assumption|])); repeat split;
    first [exact Hrb | lia | intros [= E]; lia].
Qed.

Lemma fire_forgotten (id j : nat) (cb : TimerCallback) (w : World) :
  forgotten id cb w -> forgotten id cb (fire j w).
Proof.
  intros Hf. pose proof Hf as (Hid & Hcb & Hkx & Hky & _). unfold fire.
  destruct (timers w !! j) as [[]|] eqn:Hj; [| | |exact Hf].
  - destruct (ref_current w) as [el|] eqn:Href;
      [|unfold momentumX; now rewrite Href].
    assert (Hd : forgotten id cb (decayedX w)).
    { apply (forgotten_same id cb w); [..|exact Hf];
        unfold decayedX, runScroll; cbn; now rewrite Href. }
    destruct (momentumX_cases w el Href) as [[_ ->]|[_ ->]]; [|exact Hd].
    apply forgotten_clearTimer; [exact Hkx|].
    now apply (forgotten_same id cb (decayedX w)).
  - destruct (ref_current w) as [el|] eqn:Href;
      [|unfold momentumY; now rewrite Href].
    assert (Hd : forgotten id cb (decayedY w)).
    { apply (forgotten_same id cb w); [..|exact Hf];
        unfold decayedY, runScroll; cbn; now rewrite Href. }
    destruct (momentumY_cases w el Href) as [[_ ->]|[_ ->]]; [|exact Hd].
    apply forgotten_clearTimer; [exact Hky|].
    now apply (forgotten_same id cb (decayedY w)).
  - assert (Hne : Some j <> Some id)
      by (intros [= ->]; congruence).
    apply (forgotten_clearTimer id cb (Some j) w Hne) in Hf.
    eapply forgotten_same; [..|exact Hf];
      unfold recoverChildStyle; cbn; repeat case_match; reflexivity.
Qed.

Lemma step_forgotten (id : nat) (cb : TimerCallback) (w : World) (e : Event) :
  forgotten id cb w -> forgotten id cb (step w e).
Proof.
  intros Hf. destruct e; cbn.
  - eapply forgotten_same; [..|exact Hf];
      unfold onMouseDown; repeat case_match; reflexivity.
  - eapply forgotten_same; [..|exact Hf];
      unfold onMouseMove, rubberBandCallback, runScroll;
      repeat (case_match; cbn); reflexivity.
  - destruct (listening w); [|exact Hf]. unfold onMouseUp.
    destruct (ref_current w); [|exact Hf].
    destruct (isDraggingConfirmed _ _ _); [|exact Hf].
    now apply forgotten_callbackMomentum.
  - eapply forgotten_same; [..|exact Hf];
      unfold handleResize; repeat case_match; reflexivity.
  - now apply fire_forgotten.
  - exact Hf.
  - pose proof Hf as (_ & _ & Hkx & Hky & Hrb & _). unfold cleanup.
    rewrite !clearTimer_vars. cbn [vars set_listening].
    now do 3 (apply forgotten_clearTimer; [assumption|]).
Qed.


(** X13: the hook clears an interval only through the current value
    of [keepMovingX] or [keepMovingY].  A confirmed pointer-up that comes
    while a momentum interval is still pending overwrites the handle
    without clearing the interval; and an interval whose handle is
    overwritten stays pending whatever happens afterwards: no tick of
    its own or of another timer, no later pointer-up and not even the
    clean-up of the effect removes it. *)
Theorem forgotten_interval_is_never_cleared (w : World) (id : nat)
    (cb : TimerCallback) :
  (forall el x y,
     reachable w ->
     listening w = true ->
     ref_current w = Some el ->
     isDraggingConfirmed (internalState w) x y = true ->
     keepMovingX (vars w) = Some id /\ cb = MomentumX
     \/ keepMovingY (vars w) = Some id /\ cb = MomentumY ->
     timers w !! id = Some cb ->
     forgotten id cb (step w (MouseUp x y)))
  /\ (forgotten id cb w ->
      forall es,
        forgotten id cb (run w es) /\ timers (run w es) !! id = Some cb).
Proof.
  split.
  - intros el x y Hreach Hl Href Hc Hheld Hid.
    destruct (reachable_handlesFresh w Hreach) as [Hlt Hrb].
    assert (Hcb : cb <> RecoverChildStyle)
      by (destruct Hheld as [[_ ->]|[_ ->]]; discriminate).
    assert (Hn : (id < nextTimer w)%nat) by eauto.
    assert (Hr : rubberBandAnimationTimer (vars w) <> Some id).
    { intros Hi. destruct (Hrb id Hi) as [_ H]. now apply Hcb, H. }
    cbn. rewrite Hl. unfold onMouseUp, callbackMomentum, forgotten.
    rewrite Href, Hc. cbn.
    destruct (applyRubberBandEffect opts); cbn;
      rewrite !lookup_insert_ne by lia;
      (do 2 (split; [assumption|])); repeat split;
      first [exact Hr | lia | intros [= E]; lia].
  - intros Hf es. revert w Hf.
    induction es as [|e es IH]; intros w Hf; [split; [exact Hf | apply Hf]|].
    rewrite run_cons. now apply IH, step_forgotten.
Qed.

(** *** A container that comes after the mount *)

Lemma onMouseMove_grabs (w : World) (el : HTMLElement) (x y : number) :
  isMouseDown (internalState w) = true ->
  ref_current w = Some el ->
  exists el1,
    ref_current (onMouseMove x y w) = Some el1
    /\ cursor (el_style el1) = "grabbing"
    /\ forall i child,
         childNodes el !! i = Some child ->
         exists child1,
           childNodes el1 !! i = Some child1
           /\ (isHTMLElement child = true ->
               cursor (style child1) = "grabbing").
Proof.
  intros Hd Href. unfold onMouseMove. rewrite Hd, Href. cbn.
  destruct (_ && _); unfold rubberBandCallback, runScroll; cbn;
    [destruct (displacement _ _ _ _); cbn|];
    eexists; (split; [reflexivity|]); cbn; (split; [reflexivity|]);
    intros i child Hi; rewrite ?list_lookup_fmap, Hi; cbn;
    eexists; (split; [reflexivity|]); intros Hk; unfold grab;
    rewrite Hk; cbn; rewrite ?Hk; reflexivity.
Qed.

Lemma afterMouseUp_unrestored (w : World) (x y : number) (i : nat)
    (child : ChildNode) :
  snapshot (vars w) = None ->
  cursor (style (afterMouseUp w x y i child)) = cursor (style child).
Proof.
  intros Hsnap. unfold afterMouseUp. rewrite Hsnap. cbn.
  now destruct (_ && _).
Qed.

(** X14: the style arrays are captured by the layout effect alone, so
    a container that was not there at the mount is never captured; a
    drag on such a container leaves the "grabbing" cursor on the
    container and on every child that is an HTMLElement: the pointer-up
    restores nothing. *)
Theorem late_container_keeps_grabbing_cursor (es : list Event)
    (el : HTMLElement) (buttons : Z) (x0 y0 x1 y1 x y : number) :
  let w0 := run (mount None) es in
  listening w0 = true ->
  ref_current w0 = Some el ->
  getIsMousePressActive buttons = true ->
  let w :=
    run w0 [MouseDown buttons x0 y0; MouseMove x1 y1; MouseUp x y] in
  exists el',
    ref_current w = Some el'
    /\ cursor (el_style el') = "grabbing"
    /\ forall i child,
         childNodes el !! i = Some child ->
         isHTMLElement child = true ->
         exists child',
           childNodes el' !! i = Some child'
           /\ cursor (style child') = "grabbing".
Proof.
  intros w0 Hl Href Hb w.
  assert (Hsnap0 : snapshot (vars w0) = None).
  { destruct (run_static (mount None) es) as (Hs & _). unfold w0.
    rewrite Hs. unfold mount, useEffect, useLayoutEffect.
    repeat (case_match; cbn); reflexivity. }
  set (w1 := onMouseDown buttons x0 y0 w0).
  assert (H1 : isMouseDown (internalState w1) = true
               /\ ref_current w1 = Some el
               /\ listening w1 = true
               /\ snapshot (vars w1) = None).
  { unfold w1, onMouseDown. rewrite Href, Hb. now cbn. }
  destruct H1 as (Hd1 & Href1 & Hl1 & Hsnap1).
  destruct (onMouseMove_grabs w1 el x1 y1 Hd1 Href1)
    as (el2 & Href2 & Hcur2 & Hkids2).
  set (w2 := onMouseMove x1 y1 w1) in *.
  assert (Hw2 : step w1 (MouseMove x1 y1) = w2) by (cbn; now rewrite Hl1).
  assert (Hl2 : listening w2 = true)
    by (rewrite <- Hw2, step_keeps_listening; [exact Hl1 | exact I]).
  assert (Hsnap2 : snapshot (vars w2) = None).
  { rewrite <- Hw2. destruct (step_static w1 (MouseMove x1 y1)) as (Hs & _).
    now rewrite Hs. }
  assert (Hw : w = onMouseUp x y w2).
  { unfold w. cbn [run foldl]. fold w1.
    change (step w0 (MouseDown buttons x0 y0)) with w1.
    rewrite Hw2. cbn. now rewrite Hl2. }
  destruct (onMouseUp_ref w2 el2 x y Href2) as (el' & Href' & Hkids & Hst & _).
  exists el'. rewrite Hw. split; [exact Href'|]. split.
  - rewrite Hst, Hsnap2. exact Hcur2.
  - intros i child Hi Hk.
    destruct (Hkids2 i child Hi) as (child2 & Hi2 & Hcur).
    exists (afterMouseUp w2 x y i child2).
    split; [now rewrite Hkids, list_lookup_imap, Hi2|].
    rewrite afterMouseUp_unrestored by exact Hsnap2. now apply Hcur.
Qed.

(** *** A pointer-up without a press *)

Lemma run_moves_unpressed (w : World) (moves : list (number * number)) :
  isMouseDown (internalState w) = false ->
  run w ((λ p, MouseMove p.1 p.2) <$> moves) = w.
Proof.
  intros Hd. induction moves as [|p moves IH]; [reflexivity|].
  now rewrite fmap_cons, run_cons, move_unpressed.
Qed.

Lemma onMouseMove_state (w : World) (el : HTMLElement) (x y : number) :
  isMouseDown (internalState w) = true ->
  ref_current w = Some el ->
  let s := internalState w in
  let w' := onMouseMove x y w in
  let s' := internalState w' in
  (exists el', ref_current w' = Some el')
  /\ listening w' = listening w
  /\ timers w' = timers w
  /\ nextTimer w' = nextTimer w
  /\ isDraggingX s' = true
  /\ initialMouseX s' = initialMouseX s
  /\ initialMouseY s' = initialMouseY s
  /\ scrollSpeedX s' = (lastMouseX s - x) / timing
  /\ scrollSpeedY s' = (lastMouseY s - y) / timing.
Proof.
  intros Hd Href. cbn zeta. unfold onMouseMove. rewrite Hd, Href. cbn.
  destruct (_ && _); unfold rubberBandCallback, runScroll; cbn;
    [destruct (displacement _ _ _ _); cbn|];
    (split; [eexists; reflexivity|]); repeat split.
Qed.

Lemma onMouseUp_unconfirmed (w : World) (el : HTMLElement) (x y : number) :
  ref_current w = Some el ->
  isDraggingConfirmed (internalState w) x y = false ->
  let s := internalState w in
  let w' := onMouseUp x y w in
  let s' := internalState w' in
  (exists el', ref_current w' = Some el')
  /\ listening w' = listening w
  /\ timers w' = timers w
  /\ nextTimer w' = nextTimer w
  /\ isMouseDown s' = false
  /\ isDraggingX s' = isDraggingX s
  /\ initialMouseX s' = initialMouseX s
  /\ initialMouseY s' = initialMouseY s
  /\ scrollSpeedX s' = scrollSpeedX s
  /\ scrollSpeedY s' = scrollSpeedY s.
Proof.
  intros Href Hc. cbn zeta. unfold onMouseUp. rewrite Href, Hc. cbn.
  split; [eexists; reflexivity|]. repeat split.
Qed.

(** X15: a pointer-up needs no press to be taken for the end of a
    drag.  It is judged by the dragging flags and the press position the
    hook remembers, and a pointer-up that confirms no drag clears
    neither.  So after a press, a move and a release close to the press
    position, a later pointer-up far from that position, with no press
    in between and whatever pointer moves before it, starts both
    momentum intervals at the speed of the old move and registers the
    click suppressor on every child. *)
Theorem pointer_up_needs_no_press (w : World) (el : HTMLElement)
    (x1 y1 x2 y2 : number) (moves : list (number * number)) (x y : number) :
  listening w = true ->
  ref_current w = Some el ->
  isMouseDown (internalState w) = true ->
  let s := internalState w in
  ~ (safeDisplacement opts < Qabs (initialMouseX s - x2)
     \/ safeDisplacement opts < Qabs (initialMouseY s - y2)) ->
  safeDisplacement opts < Qabs (initialMouseX s - x)
  \/ safeDisplacement opts < Qabs (initialMouseY s - y) ->
  let w' :=
    run w (MouseMove x1 y1 :: MouseUp x2 y2
           :: ((λ p, MouseMove p.1 p.2) <$> moves) ++ [MouseUp x y]) in
  keepMovingX (vars w') = Some (nextTimer w)
  /\ timers w' !! nextTimer w = Some MomentumX
  /\ keepMovingY (vars w') = Some (S (nextTimer w))
  /\ timers w' !! S (nextTimer w) = Some MomentumY
  /\ scrollSpeedX (internalState w') = (lastMouseX s - x1) / timing
  /\ scrollSpeedY (internalState w') = (lastMouseY s - y1) / timing
  /\ exists el',
       ref_current w' = Some el'
       /\ Forall (λ child, clickPrevented child = true) (childNodes el').
Proof.
  intros Hl Href Hd s Hnear Hfar w'. subst w' s.
  rewrite !run_cons, run_app.
  (* the move *)
  assert (Hw1 : step w (MouseMove x1 y1) = onMouseMove x1 y1 w)
    by (cbn; now rewrite Hl).
  rewrite Hw1.
  destruct (onMouseMove_state w el x1 y1 Hd Href)
    as ([el1 Href1] & Hl1 & Ht1 & Hn1 & Hf1 & Hix1 & Hiy1 & Hsx1 & Hsy1).
  set (w1 := onMouseMove x1 y1 w) in *.
  (* the release close to the press position *)
  assert (Hc1 : isDraggingConfirmed (internalState w1) x2 y2 = false).
  { apply not_true_iff_false. rewrite isDraggingConfirmed_true.
    rewrite Hix1, Hiy1. tauto. }
  assert (Hw2 : step w1 (MouseUp x2 y2) = onMouseUp x2 y2 w1)
    by (cbn; now rewrite Hl1, Hl).
  rewrite Hw2.
  destruct (onMouseUp_unconfirmed w1 el1 x2 y2 Href1 Hc1)
    as ([el2 Href2] & Hl2 & Ht2 & Hn2 & Hd2 & Hf2 & Hix2 & Hiy2 & Hsx2 & Hsy2).
  set (w2 := onMouseUp x2 y2 w1) in *.
  (* the pointer moves in between *)
  rewrite (run_moves_unpressed w2 moves Hd2).
  (* the pointer-up far from the press position *)
  assert (Hc2 : isDraggingConfirmed (internalState w2) x y = true).
  { apply isDraggingConfirmed_true. rewrite Hf2, Hf1, Hix2, Hiy2, Hix1, Hiy1.
    auto. }
  cbn [run foldl step]. rewrite Hl2, Hl1, Hl.
  destruct (onMouseUp_ref w2 el2 x y Href2) as (el' & Href' & Hkids & _).
  assert (Hall : Forall (λ child, clickPrevented child = true) (childNodes el')).
  { rewrite Hkids. apply Forall_lookup. intros i c.
    rewrite list_lookup_imap. destruct (childNodes el2 !! i); [|discriminate].
    intros [= <-]. now rewrite afterMouseUp_clickPrevented. }
  rewrite <- Hn1, <- Hn2, <- Hsx1, <- Hsy1, <- Hsx2, <- Hsy2.
  split; [|split; [|split; [|split; [|split; [|split]]]]].
  7: now exists el'.
  all: unfold onMouseUp, callbackMomentum; rewrite Href2, Hc2; cbn;
    destruct (applyRubberBandEffect opts); cbn; try reflexivity;
    rewrite ?lookup_insert_ne by lia; apply lookup_insert_eq.
Qed.

(** *** Fields that are only written *)

(** The fields of the state and of the world, laid open. *)
Ltac expose :=
  cbv beta iota zeta delta
    [withoutLastScroll set_state set_ref set_vars set_timers set_listening
     set_scrollSpeedX set_scrollSpeedY set_isDragging
     internalState ref_current vars timers nextTimer listening
     isMouseDown isDraggingX isDraggingY initialMouseX initialMouseY
     lastMouseX lastMouseY scrollSpeedX scrollSpeedY lastScrollX lastScrollY].

Lemma onMouseMove_withoutLastScroll (w : World) (x y : number) :
  withoutLastScroll (onMouseMove x y (withoutLastScroll w))
  = withoutLastScroll (onMouseMove x y w).
Proof.
  destruct w as [r s c t n l]. destruct s as [d ? ? ? ? ? ? ? ? ? ?].
  unfold onMouseMove. expose.
  destruct d; [|reflexivity]. destruct r as [el|]; [|reflexivity].
  destruct (_ && _); [|reflexivity].
  unfold rubberBandCallback, displacement. expose.
  destruct (isScrollableAlongX c), (isScrollableAlongY c); reflexivity.
Qed.

Lemma onMouseUp_withoutLastScroll (w : World) (x y : number) :
  withoutLastScroll (onMouseUp x y (withoutLastScroll w))
  = withoutLastScroll (onMouseUp x y w).
Proof.
  destruct w as [r s c t n l]. destruct s as [d ? ? ? ? ? ? ? ? ? ?].
  unfold onMouseUp. expose.
  destruct r as [el|]; [|reflexivity].
  unfold isDraggingConfirmed. expose.
  destruct (_ && _); [|reflexivity].
  unfold callbackMomentum, setTimer. expose.
  destruct (applyRubberBandEffect opts); reflexivity.
Qed.

Lemma momentumX_withoutLastScroll (w : World) :
  withoutLastScroll (momentumX (withoutLastScroll w))
  = withoutLastScroll (momentumX w).
Proof.
  destruct w as [r s c t n l]. destruct s as [d ? ? ? ? ? ? ? ? ? ?].
  unfold momentumX, runScroll. expose.
  destruct r as [el|]; [|reflexivity].
  destruct (_ || _); [|reflexivity].
  unfold clearTimer. destruct (keepMovingX c); reflexivity.
Qed.

Lemma momentumY_withoutLastScroll (w : World) :
  withoutLastScroll (momentumY (withoutLastScroll w))
  = withoutLastScroll (momentumY w).
Proof.
  destruct w as [r s c t n l]. destruct s as [d ? ? ? ? ? ? ? ? ? ?].
  unfold momentumY, runScroll. expose.
  destruct r as [el|]; [|reflexivity].
  destruct (_ || _); [|reflexivity].
  unfold clearTimer. destruct (keepMovingY c); reflexivity.
Qed.

Lemma step_withoutLastScroll (w : World) (e : Event) :
  withoutLastScroll (step (withoutLastScroll w) e)
  = withoutLastScroll (step w e).
Proof.
  destruct e; cbn [step].
  - destruct w as [r s c t n l]. unfold onMouseDown. expose.
    destruct r; [|reflexivity].
    destruct (getIsMousePressActive buttons); reflexivity.
  - change (listening (withoutLastScroll w)) with (listening w).
    destruct (listening w); [|reflexivity].
    apply onMouseMove_withoutLastScroll.
  - change (listening (withoutLastScroll w)) with (listening w).
    destruct (listening w); [|reflexivity].
    apply onMouseUp_withoutLastScroll.
  - change (listening (withoutLastScroll w)) with (listening w).
    destruct (listening w); [|reflexivity].
    destruct w as [r s c t n l]. unfold handleResize. expose.
    destruct r; reflexivity.
  - unfold fire. change (timers (withoutLastScroll w)) with (timers w).
    destruct (timers w !! id) as [[]|]; [| | |reflexivity].
    + apply momentumX_withoutLastScroll.
    + apply momentumY_withoutLastScroll.
    + destruct w as [r s c t n l]. unfold recoverChildStyle. expose.
      destruct r, (snapshot c); reflexivity.
  - reflexivity.
  - destruct w as [r s c t n l]. unfold cleanup, clearTimer. expose.
    destruct (keepMovingX c), (keepMovingY c), (rubberBandAnimationTimer c);
      reflexivity.
Qed.

Lemma run_withoutLastScroll (w : World) (es : list Event) :
  withoutLastScroll (run (withoutLastScroll w) es)
  = withoutLastScroll (run w es).
Proof.
  revert w. induction es as [|e es IH]; intros w.
  - unfold withoutLastScroll. reflexivity.
  - rewrite !run_cons.
    rewrite <- (IH (step (withoutLastScroll w) e)), step_withoutLastScroll.
    apply IH.
Qed.

(** X16: [lastScrollX] and [lastScrollY] are written by [runScroll]
    and read by nothing: two states that differ in these two fields
    alone go, under any sequence of events, to states that differ in
    these two fields alone. *)
Theorem lastScroll_is_never_read (w1 w2 : World) (es : list Event) :
  withoutLastScroll w1 = withoutLastScroll w2 ->
  withoutLastScroll (run w1 es) = withoutLastScroll (run w2 es).
Proof.
  intros H.
  rewrite <- (run_withoutLastScroll w1), <- (run_withoutLastScroll w2).
  now rewrite H.
Qed.

End Controller.

(** ** Worked examples *)

Section Examples.

Import Fixtures.

Let run' := run log10 toString.

(** Closed goals are settled by evaluation. *)
Ltac evaluate := vm_compute; first [reflexivity | discriminate].

(** A property of every member of a concrete list. *)
Ltac each tac :=
  repeat (apply List.Forall_cons; [tac|]); apply List.Forall_nil.

(** The container a concrete world holds. *)
Ltac container w :=
  let r := eval vm_compute in (ref_current w) in
  lazymatch r with
  | Some ?el => constr:(el)
  end.

(** The [i]-th child of the container a concrete world holds. *)
Ltac child w i :=
  let el := container w in
  let r := eval vm_compute in (childNodes el !! i) in
  lazymatch r with
  | Some ?c => constr:(c)
  end.

(** A 20 px drag to the right, released: the box is not scrollable
    along X (its overflow is "hidden") and the drag has brought it from
    offset 20 to offset 0. *)
Let released : World :=
  run' defaultOptions (mount defaultOptions (Some (box 20 "hidden" [div; svg])))
    [MouseDown 1 100 100; MouseMove 120 100; MouseUp 120 100].

(** A 20 px drag to the left in the middle of the content, released. *)
Let gliding : World :=
  run' defaultOptions (mount defaultOptions (Some (box 150 "scroll" [div])))
    [MouseDown 1 100 100; MouseMove 80 100; MouseUp 80 100].

Lemma runScroll_applies_speed_witness :
  (exists el',
     ref_current (runScroll gliding) = Some el'
     /\ scrollLeft el' == 190
     /\ lastScrollX (internalState (runScroll gliding)) = scrollLeft el')
  /\ runScroll (initialWorld None) = initialWorld None.
Proof.
  destruct (runScroll_applies_speed gliding) as [Hsome _].
  destruct (runScroll_applies_speed (initialWorld None)) as [_ Hnone].
  split; [|exact (Hnone eq_refl)].
  let el := container gliding in
  destruct (Hsome el) as (el' & Href & Hx & _ & Hlx & _); [evaluate|].
  exists el'. split; [exact Href|]. split; [|exact Hlx].
  rewrite Hx. evaluate.
Defined.

(** Pressed and dragged 20 px to the left, not yet released. *)
Let dragged : World :=
  run' defaultOptions (mount defaultOptions (Some (box 150 "scroll" [div])))
    [MouseDown 1 100 100; MouseMove 80 100].

Lemma pointer_up_confirms_drag_witness :
  exists el',
    ref_current (onMouseUp defaultOptions 80 100 dragged) = Some el'
    /\ keepMovingX (vars (onMouseUp defaultOptions 80 100 dragged))
       = Some (nextTimer dragged)
    /\ Forall (λ child, clickPrevented child = true) (childNodes el').
Proof.
  let el := container dragged in
  destruct (pointer_up_confirms_drag defaultOptions dragged el 80 100)
    as (el' & Href & _ & Hyes & _); [evaluate|].
  exists el'. split; [exact Href|].
  destruct Hyes as (Hk & _ & _ & _ & Hall).
  { split; left; evaluate. }
  split; [exact Hk | exact Hall].
Defined.






Lemma momentum_tick_stop_decision_witness :
  timers (fire defaultOptions 1 released) !! 1%nat = None
  /\ scrollSpeedX (internalState (fire defaultOptions 1 released)) = 0.
Proof.
  let el := container released in
  destruct (momentum_tick_stop_decision defaultOptions released el)
    as [HX _]; [evaluate|].
  destruct (HX 1%nat) as (Hstop & _); [evaluate..|].
  apply Hstop. right; right; left. evaluate.
Defined.

(** C4, counterexample: the X axis of [released] is not scrollable, the
    decayed speed is 1.14 in absolute value and the pointer is up, yet
    the tick clears the interval, because the offset is 0. *)
Lemma momentum_stops_on_unscrollable_axis :
  exists el,
    ref_current released = Some el
    /\ isScrollableAlongX (vars released) = false
    /\ scrollLeft el == 0
    /\ keepMovingX (vars released) = Some 1%nat
    /\ timers released !! 1%nat = Some MomentumX
    /\ timers (fire defaultOptions 1 released) !! 1%nat = None
    /\ ~ (Qabs (scrollSpeedX (internalState released)
                 * decayRate defaultOptions) < 5 # 100
          \/ isMouseDown (internalState released) = true
          \/ (isScrollableAlongX (vars released) = true
              /\ (scrollLeft el <= 0
                  \/ maxHorizontalScroll (vars released) <= scrollLeft el))).
Proof.
  let el := container released in exists el.
  do 6 (split; [evaluate|]).
  intros [H|[H|[H _]]]; vm_compute in H; discriminate.
Qed.

(** Pressed at the left edge of a box that scrolls along X, with the
    rubber band enabled. *)
Let pressedAtEdge : World :=
  run' rubberOptions (mount rubberOptions (Some (box 0 "scroll" [div; svg])))
    [MouseDown 1 100 100].

Lemma rubber_band_displacement_witness :
  exists el',
    ref_current (rubberBandCallback log10 toString 120 100 pressedAtEdge)
    = Some el'
    /\ scrollLeft el' = 0.
Proof.
  destruct (rubber_band_displacement log10 toString pressedAtEdge
              (box 0 "scroll" [div; svg]) (120 - 100) (100 - 100))
    as [_ Hcb].
  destruct (Hcb 120 100) as (el' & Href & Hx & _); [evaluate..|].
  exists el'. split; [exact Href | exact Hx].
Defined.

(** The interaction of C6 on a box with a [<div>] and an [<svg>]: press
    at the left edge, drag 20 px to the right, release. *)
Let snappingBack : World :=
  run' rubberOptions (mount rubberOptions (Some (box 0 "scroll" [div; svg])))
    (MouseDown 1 100 100 :: ((λ p, MouseMove p.1 p.2) <$> [(120, 100)])
     ++ [MouseUp 120 100]).

(** Then one momentum tick and the snap-back timeout (timer 3). *)
Let snapped : World :=
  run' rubberOptions snappingBack
    ((TimerFires <$> [1%nat]) ++ [TimerFires 3]).

Lemma snap_back_restores_html_children_witness :
  exists el child,
    ref_current snapped = Some el
    /\ childNodes el !! 0%nat = Some child
    /\ transform (style child) = ""
    /\ transition (style child) = "all 0s ease 0s".
Proof.
  destruct (snap_back_restores_html_children log10 toString rubberOptions
              (box 0 "scroll" [div; svg])
              [MouseDown 1 100 100; MouseMove 120 100; MouseUp 120 100;
               TimerFires 1])
    as [_ Hfires]; [evaluate | each ltac:(exact I) |].
  destruct (Hfires 3%nat) as (el & Href & Hkids); [evaluate|].
  destruct (Hkids 0%nat div) as (child & Hc & Htf & Htr); [evaluate..|].
  exists el, child. split; [|repeat split; assumption].
  etrans; [|exact Href]. evaluate.
Defined.

(** C6: at this input (rubber band enabled; a container with a [<div>]
    and an [<svg>], neither with inline styles; press, a 20 px drag at
    the left edge, release, one momentum tick, the snap-back timeout) the
    [<svg>] child, which the snap-back loop of [callbackMomentum] writes
    and [recoverChildStyle] skips, is left with the transform and the
    transition of the snap-back, not the captured values. *)
Lemma snap_back_residue_on_svg :
  exists el child,
    ref_current snapped = Some el
    /\ childNodes el !! 1%nat = Some child
    /\ isHTMLElement child = false
    /\ transform (style child) = "translate3d(0px, 0px, 0px)"
    /\ transition (style child) = "transform 250ms"
    /\ transform (style child) <> noneAsEmpty (transform (computed svg))
    /\ transition (style child) <> noneAsEmpty (transition (computed svg)).
Proof.
  let el := container snapped in exists el.
  let c := child snapped 1%nat in exists c.
  repeat split; evaluate.
Qed.

Lemma pointer_up_restores_cursors_witness :
  exists el,
    ref_current
      (run' defaultOptions (mount defaultOptions (Some (box 20 "hidden" [div; svg])))
         ([MouseDown 1 100 100; MouseMove 120 100] ++ [MouseUp 120 100]))
    = Some el
    /\ cursor (el_style el) = "auto".
Proof.
  destruct (pointer_up_restores_cursors log10 toString defaultOptions
              (box 20 "hidden" [div; svg])
              [MouseDown 1 100 100; MouseMove 120 100] 120 100)
    as (el & Href & Hcur & _); [evaluate | each ltac:(exact I) |].
  exists el. split; [exact Href | exact Hcur].
Defined.

(** C7, counterexample: after the pointer-up of [released] the [<svg>]
    child, which the handlers skip, has the inline cursor it always had,
    not the cursor captured for it at mount. *)
Lemma pointer_up_skips_svg :
  exists el child snap,
    ref_current released = Some el
    /\ snapshot (vars released) = Some snap
    /\ childNodes el !! 1%nat = Some child
    /\ cursorStyleOfChildElements snap !! 1%nat = Some "pointer"
    /\ cursor (style child) = ""
    /\ cursor (style child) <> "pointer".
Proof.
  let el := container released in exists el.
  let c := child released 1%nat in exists c.
  exists (capture (box 20 "hidden" [div; svg])).
  repeat split; evaluate.
Qed.

(** A box whose overflow the host switches from "hidden" to "scroll" and
    whose content it widens to 800 px. *)
Let widened : HTMLElement :=
  mkElement 0 0 800 100 200 100 (mkStyle "auto" "none" "none" "scroll" "hidden")
    noStyle [div].

Let rebuilt : World :=
  run' defaultOptions (mount defaultOptions (Some (box 0 "hidden" [div])))
    [Host (Some widened)].

Lemma resize_recomputes_maxima_witness :
  maxHorizontalScroll (vars (step log10 toString defaultOptions rebuilt Resize))
  == 600
  /\ isScrollableAlongX (vars (step log10 toString defaultOptions rebuilt Resize))
     = isScrollableAlongX (vars rebuilt).
Proof.
  destruct (resize_recomputes_maxima log10 toString defaultOptions rebuilt widened)
    as (Hx & _ & Hfx & _); [evaluate..|].
  split; [rewrite Hx; evaluate | exact Hfx].
Defined.

(** C8, counterexample: the container's overflow style is "scroll" when
    the resize happens, yet [isScrollableAlongX] stays false. *)
Lemma resize_keeps_scrollability_flag :
  let resized := step log10 toString defaultOptions rebuilt Resize in
  ref_current resized = Some widened
  /\ overflowX (el_computed widened) = "scroll"
  /\ isScrollableAlongX (vars resized) = false
  /\ maxHorizontalScroll (vars resized) == 600.
Proof. repeat split; evaluate. Qed.

(** A press, a 5 px move and a release: not a confirmed drag. *)
Let jitter : World :=
  run' defaultOptions (mount defaultOptions (Some (box 150 "scroll" [div])))
    [MouseDown 1 100 100; MouseMove 95 100; MouseUp 95 100].

Lemma speeds_nonzero_only_when_active_witness :
  isDraggingX (internalState jitter) = true
  \/ exists id, timers jitter !! id = Some MomentumX.
Proof.
  destruct (speeds_nonzero_only_when_active log10 toString defaultOptions jitter)
    as [Hinv _].
  { apply run_reachable. constructor. }
  destruct Hinv as [Hx _]; [evaluate|]. apply Hx. evaluate.
Defined.

(** C9, counterexample: after the unconfirmed pointer-up of [jitter] the
    pointer is up and no timer is pending, yet [scrollSpeedX] is 0.3. *)
Lemma speed_survives_unconfirmed_release :
  isMouseDown (internalState jitter) = false
  /\ timers jitter = ∅
  /\ scrollSpeedX (internalState jitter) == 3 # 10
  /\ ~ scrollSpeedX (internalState jitter) == 0.
Proof. repeat split; evaluate. Qed.



(** *** Further examples *)

(** Pressed at (100, 100) in the middle of the content. *)
Let pressed : World :=
  run' defaultOptions (mount defaultOptions (Some (box 150 "scroll" [div])))
    [MouseDown 1 100 100].

Lemma drag_follows_pointer_witness :
  exists el',
    ref_current
      (run' defaultOptions pressed
         ((λ p, MouseMove p.1 p.2) <$> [(80, 100); (90, 100); (60, 100)]))
    = Some el'
    /\ scrollLeft el' == 190.
Proof.
  destruct (drag_follows_pointer log10 toString defaultOptions pressed
              (box 150 "scroll" [div]) [(80, 100); (90, 100); (60, 100)])
    as (el' & Href & _ & _ & Hx & _); [evaluate..|].
  exists el'. split; [exact Href|]. rewrite Hx. evaluate.
Defined.

Lemma moves_need_a_press_witness :
  let w :=
    run' defaultOptions (mount defaultOptions (Some (box 150 "scroll" [div])))
      [MouseDown 3 100 100; Resize; MouseMove 80 100] in
  step log10 toString defaultOptions w (MouseMove 60 100) = w.
Proof.
  destruct (moves_need_a_press log10 toString defaultOptions
              [MouseDown 3 100 100; Resize; MouseMove 80 100])
    as (_ & Hmount & _).
  { each ltac:(first [exact I | evaluate]). }
  apply Hmount.
Defined.

(** The default options with [isMounted] false. *)
Let idleOptions : OptionsType := mkOptions (95 # 100) 10 false Left false.

Lemma not_mounted_is_inert_witness :
  ref_current
    (run' idleOptions (mount idleOptions (Some (box 150 "scroll" [div])))
       [MouseDown 1 100 100; MouseMove 80 100; MouseUp 80 100; Resize;
        TimerFires 1; Unmount])
  = Some (box 150 "scroll" [div]).
Proof.
  destruct (not_mounted_is_inert log10 toString idleOptions
              (Some (box 150 "scroll" [div]))
              [MouseDown 1 100 100; MouseMove 80 100; MouseUp 80 100; Resize;
               TimerFires 1; Unmount]) as (Href & _).
  - evaluate.
  - each ltac:(intros ?; discriminate).
  - exact Href.
Defined.

Lemma unmount_is_final_witness :
  let w' :=
    run' defaultOptions (step log10 toString defaultOptions gliding Unmount)
      [MouseDown 1 100 100; TimerFires 2] in
  step log10 toString defaultOptions w' (MouseMove 60 100) = w'
  /\ timers w' !! 1%nat = None.
Proof.
  destruct (unmount_is_final log10 toString defaultOptions gliding
              [MouseDown 1 100 100; TimerFires 2]) as (_ & Hwin & Hgone).
  split; [apply Hwin; exact I|].
  destruct (Hgone 1%nat) as [Hnone _]; [left; evaluate | exact Hnone].
Defined.

Lemma only_pointer_up_changes_click_suppression_witness :
  suppressors
    (run' defaultOptions released
       [MouseDown 1 5 5; MouseMove 6 6; TimerFires 1; Resize; Unmount])
  = Some [true; true].
Proof.
  etrans.
  - apply (only_pointer_up_changes_click_suppression log10 toString
             defaultOptions released).
    each ltac:(split; intros; discriminate).
  - evaluate.
Defined.

Lemma no_rubber_band_no_transform_witness :
  transforms
    (run' defaultOptions
       (mount defaultOptions (Some (box 20 "hidden" [div; svg])))
       [MouseDown 1 100 100; MouseMove 120 100; MouseUp 120 100;
        TimerFires 1; TimerFires 2])
  = Some [("", ""); ("", "")].
Proof.
  destruct (no_rubber_band_no_transform log10 toString defaultOptions
              (Some (box 20 "hidden" [div; svg]))
              [MouseDown 1 100 100; MouseMove 120 100; MouseUp 120 100;
               TimerFires 1; TimerFires 2]) as [Ht _].
  - evaluate.
  - each ltac:(intros ?; discriminate).
  - etrans; [exact Ht | evaluate].
Defined.

Lemma momentum_tick_scrolls_both_axes_witness :
  exists el',
    ref_current (fire defaultOptions 1 gliding) = Some el'
    /\ scrollLeft el' == 189.
Proof.
  let el := container gliding in
  destruct (momentum_tick_scrolls_both_axes defaultOptions gliding el)
    as (HX & _); [evaluate|].
  destruct (HX 1%nat) as (el' & Href & Hx & _); [evaluate|].
  exists el'. split; [exact Href|]. rewrite Hx. evaluate.
Defined.

Lemma rubber_band_is_odd_witness :
  0 < (displacement (λ x, x - 1) pressedAtEdge (box 0 "scroll" [div; svg])
         20 0).1.
Proof.
  destruct (rubber_band_is_odd (λ x, x - 1) pressedAtEdge
              (box 0 "scroll" [div; svg]) 20 0) as (_ & _ & _ & Hpos).
  - intros _. evaluate.
  - intros H. vm_compute in H. discriminate H.
  - destruct Hpos as [HX _]; [intros x Hx; lra|].
    apply HX; evaluate.
Defined.

Lemma rubber_band_last_write_wins_witness :
  recoverChildStyle (rubberBandCallback log10 toString 120 100 pressedAtEdge)
  = recoverChildStyle pressedAtEdge.
Proof.
  destruct (rubber_band_last_write_wins log10 toString pressedAtEdge
              120 100 130 100) as [_ Hrec].
  apply (Hrec (box 0 "scroll" [div; svg])
           (capture (box 0 "scroll" [div; svg])));
    [evaluate | evaluate | cbn; lia | cbn; lia].
Defined.

Lemma dragging_flags_agree_witness :
  isDraggingX (internalState jitter) = isDraggingY (internalState jitter).
Proof.
  apply (dragging_flags_agree log10 toString defaultOptions).
  apply run_reachable. constructor.
Defined.

Lemma only_pointer_up_starts_timers_witness :
  nextTimer
    (run' defaultOptions gliding
       [MouseDown 1 100 100; MouseMove 60 100; TimerFires 1; Resize])
  = 3%nat.
Proof.
  destruct (only_pointer_up_starts_timers log10 toString defaultOptions gliding
              [MouseDown 1 100 100; MouseMove 60 100; TimerFires 1; Resize])
    as [_ Hnext].
  - each ltac:(intros; discriminate).
  - etrans; [exact Hnext | evaluate].
Defined.

(** Pressed again and dragged on while the momentum of [gliding] is
    still running, before any tick. *)
Let regrabbed : World :=
  run' defaultOptions gliding [MouseDown 1 100 100; MouseMove 60 100].

Lemma forgotten_interval_is_never_cleared_witness :
  timers
    (run' defaultOptions
       (step log10 toString defaultOptions regrabbed (MouseUp 60 100))
       [TimerFires 1; TimerFires 3; Unmount]) !! 1%nat
  = Some MomentumX.
Proof.
  destruct (forgotten_interval_is_never_cleared log10 toString defaultOptions
              regrabbed 1 MomentumX) as [Hlost _].
  destruct (forgotten_interval_is_never_cleared log10 toString defaultOptions
              (step log10 toString defaultOptions regrabbed (MouseUp 60 100))
              1 MomentumX) as [_ Hkept].
  let el := container regrabbed in
  specialize (Hlost el 60 100).
  destruct (Hkept) with (es := [TimerFires 1; TimerFires 3; Unmount])
    as [_ Hpending].
  - apply Hlost; [apply run_reachable, run_reachable; constructor
                 | evaluate | evaluate | evaluate
                 | left; split; evaluate | evaluate].
  - exact Hpending.
Defined.

Lemma late_container_keeps_grabbing_cursor_witness :
  exists el',
    ref_current
      (run' defaultOptions
         (run' defaultOptions (mount defaultOptions None)
            [Host (Some (box 150 "scroll" [div; svg]))])
         [MouseDown 1 100 100; MouseMove 80 100; MouseUp 80 100])
    = Some el'
    /\ cursor (el_style el') = "grabbing".
Proof.
  destruct (late_container_keeps_grabbing_cursor log10 toString defaultOptions
              [Host (Some (box 150 "scroll" [div; svg]))]
              (box 150 "scroll" [div; svg]) 1 100 100 80 100 80 100)
    as (el' & Href & Hcur & _); [evaluate..|].
  exists el'. split; [exact Href | exact Hcur].
Defined.

Lemma pointer_up_needs_no_press_witness :
  let w' :=
    run' defaultOptions pressed
      (MouseMove 95 100 :: MouseUp 95 100
       :: ((λ p, MouseMove p.1 p.2) <$> [(300, 200)]) ++ [MouseUp 300 200]) in
  timers w' !! 1%nat = Some MomentumX
  /\ scrollSpeedX (internalState w') == 3 # 10.
Proof.
  destruct (pointer_up_needs_no_press log10 toString defaultOptions pressed
              (box 150 "scroll" [div]) 95 100 95 100 [(300, 200)] 300 200)
    as (_ & Htimer & _ & _ & Hspeed & _).
  - evaluate.
  - evaluate.
  - evaluate.
  - intros [H|H]; vm_compute in H; discriminate.
  - left. evaluate.
  - split; [exact Htimer|]. unfold run'. rewrite Hspeed. evaluate.
Defined.

(** [gliding] with other values in [lastScrollX] and [lastScrollY]. *)
Let glidingElsewhere : World :=
  let s := internalState gliding in
  set_state
    (mkState (isMouseDown s) (isDraggingX s) (isDraggingY s)
       (initialMouseX s) (initialMouseY s) (lastMouseX s) (lastMouseY s)
       (scrollSpeedX s) (scrollSpeedY s) 7 9) gliding.

Lemma lastScroll_is_never_read_witness :
  withoutLastScroll
    (run' defaultOptions glidingElsewhere
       [TimerFires 1; MouseDown 1 100 100; MouseMove 60 100; TimerFires 2])
  = withoutLastScroll
      (run' defaultOptions gliding
         [TimerFires 1; MouseDown 1 100 100; MouseMove 60 100; TimerFires 2]).
Proof.
  apply (lastScroll_is_never_read log10 toString defaultOptions
           glidingElsewhere gliding). evaluate.
Defined.

End Examples.
